(** * The dataset loader of [transformer_lm/datasets.py]

    A shallow embedding of the loader, and the properties of its
    specification.  The loader fetches three language-modelling corpora
    (enwik8, PTB, WikiText), caches them on disk, builds a vocabulary from
    the training split and encodes every split as an array of vocabulary
    indices.

    Conventions of the embedding:
    - a Python [int] is a [Z]; a [numpy.uint32] is a [Z] reduced modulo
      [2^32];
    - a Python [bytes] object is a [list byte];
    - a Python [str] that is the text of a file, or a token of it, is
      the list of its code points ([pystr], a [list N]); a file is decoded
      as UTF-8, the encoding of the locale;
    - a path, a URL or a file name is a [string];
    - a Python [set] is a [gset], a [dict] is a [gmap]; the order in which
      a set is iterated is a parameter of the development;
    - an exception is a value of [exn]; code that can raise returns a
      [result];
    - the file system and the network are a [world] that is passed
      explicitly, with a log of the requests made to the network. *)

From Stdlib Require Import ZArith Ascii.
From Stdlib.Strings Require Import Byte.
From stdpp Require Import gmap strings list fin_maps fin_sets.

Local Open Scope string_scope.
Local Open Scope list_scope.
Local Open Scope Z_scope.

(* The solvers of stdpp clear hypotheses that a section may have fixed. *)
#[local] Set Warnings "-clear-no-such-hyp".

(** ** Exceptions

    The exceptions that the loader and what it calls can raise, each
    class on its own.  [UnicodeDecodeError], which Python derives from
    [ValueError], is what reading a file that is not UTF-8 raises;
    [ValueError] here is the exception that [wikitext] raises itself. *)

Inductive exn : Type :=
| KeyError
| ValueError
| IndexError
| FileNotFoundError
| IsADirectoryError
| URLError
| FileExistsError
| BadZipFile
| UnicodeDecodeError
| AssertionError.

Inductive result (A : Type) : Type :=
| Ok (a : A)
| Raise (e : exn).
Arguments Ok {A} a.
Arguments Raise {A} e.

#[export] Instance exn_eq_dec : EqDecision exn.
Proof. solve_decision. Defined.

Definition result_bind {A B} (r : result A) (k : A → result B) : result B :=
  match r with
  | Ok a => k a
  | Raise e => Raise e
  end.

Definition result_map {A B} (f : A → B) (r : result A) : result B :=
  result_bind r (λ a, Ok (f a)).

Definition is_Ok {A} (r : result A) : bool :=
  match r with
  | Ok _ => true
  | Raise _ => false
  end.

(** [[f x for x in l]] where [f] may raise: the first exception wins. *)
Fixpoint result_mapM {A B} (f : A → result B) (l : list A) : result (list B) :=
  match l with
  | [] => Ok []
  | x :: l' =>
      result_bind (f x) (λ y,
      result_bind (result_mapM f l') (λ ys, Ok (y :: ys)))
  end.

(** ** Python built-ins used by the loader *)

(** The text of a file and its tokens: lists of code points. *)
Abbreviation pystr := (list N).

(** The text of a literal written in ASCII. *)
Definition str (s : string) : pystr :=
  map N_of_ascii (String.list_ascii_of_string s).

Module Py.

(** The code points of the space, the line feed and the carriage
    return. *)
Definition space : N := 32.
Definition lf : N := 10.
Definition cr : N := 13.

(** [str.isspace] on one character: the code points that Unicode
    classes as whitespace. *)
Definition isspace (c : N) : bool :=
  (((9 <=? c) && (c <=? 13)) || ((28 <=? c) && (c <=? 32))
   || (c =? 133) || (c =? 160) || (c =? 5760)
   || ((8192 <=? c) && (c <=? 8202)) || (c =? 8232) || (c =? 8233)
   || (c =? 8239) || (c =? 8287) || (c =? 12288))%N.

Fixpoint lstrip (s : pystr) : pystr :=
  match s with
  | [] => []
  | c :: s' => if isspace c then lstrip s' else s
  end.

Fixpoint rstrip (s : pystr) : pystr :=
  match s with
  | [] => []
  | c :: s' =>
      match rstrip s' with
      | [] => if isspace c then [] else [c]
      | r => c :: r
      end
  end.

(** [s.strip()] *)
Definition strip (s : pystr) : pystr := rstrip (lstrip s).

(** Cut [s] at every character that satisfies [is_sep]; the pieces
    between two cuts may be empty. *)
Fixpoint split_on (is_sep : N → bool) (s : pystr) : list pystr :=
  match s with
  | [] => [[]]
  | c :: s' =>
      if is_sep c then [] :: split_on is_sep s'
      else match split_on is_sep s' with
           | [] => [[c]]
           | w :: ws => (c :: w) :: ws
           end
  end.

(** [s.split(sep)] for a separator of one character. *)
Definition split (sep : N) (s : pystr) : list pystr :=
  split_on (N.eqb sep) s.

(** A continuation byte of UTF-8. *)
Definition utf8_cont (b : N) : bool := ((128 <=? b) && (b <=? 191))%N.

(** The second byte that may follow the first byte [b0] of a sequence of
    three, and of four: no overlong form, no surrogate, nothing above
    U+10FFFF. *)
Definition utf8_second3 (b0 b1 : N) : bool :=
  (if b0 =? 224 then (160 <=? b1) && (b1 <=? 191)
   else if b0 =? 237 then (128 <=? b1) && (b1 <=? 159)
   else utf8_cont b1)%N.

Definition utf8_second4 (b0 b1 : N) : bool :=
  (if b0 =? 240 then (144 <=? b1) && (b1 <=? 191)
   else if b0 =? 244 then (128 <=? b1) && (b1 <=? 143)
   else utf8_cont b1)%N.

(** The code points of a sequence of bytes read as UTF-8; [None] where
    the strict decoder raises. *)
Fixpoint utf8_points (bs : list N) : option pystr :=
  match bs with
  | [] => Some []
  | b0 :: r0 =>
      if (b0 <=? 127)%N then cons b0 <$> utf8_points r0
      else if ((194 <=? b0) && (b0 <=? 223))%N then
        match r0 with
        | b1 :: r1 =>
            if utf8_cont b1
            then cons ((b0 - 192) * 64 + (b1 - 128))%N <$> utf8_points r1
            else None
        | _ => None
        end
      else if ((224 <=? b0) && (b0 <=? 239))%N then
        match r0 with
        | b1 :: b2 :: r2 =>
            if utf8_second3 b0 b1 && utf8_cont b2
            then cons ((b0 - 224) * 4096 + (b1 - 128) * 64 + (b2 - 128))%N
                   <$> utf8_points r2
            else None
        | _ => None
        end
      else if ((240 <=? b0) && (b0 <=? 244))%N then
        match r0 with
        | b1 :: b2 :: b3 :: r3 =>
            if utf8_second4 b0 b1 && utf8_cont b2 && utf8_cont b3
            then cons ((b0 - 240) * 262144 + (b1 - 128) * 4096
                       + (b2 - 128) * 64 + (b3 - 128))%N
                   <$> utf8_points r3
            else None
        | _ => None
        end
      else None
  end.

(** [b.decode("utf-8")] *)
Definition utf8_decode (b : list byte) : option pystr :=
  utf8_points (map Byte.to_N b).

(** Text mode with universal newlines: ["\r\n"] and a lone ["\r"] are
    read as ["\n"]. *)
Fixpoint universal_newlines (s : pystr) : pystr :=
  match s with
  | [] => []
  | c :: s' =>
      if (c =? cr)%N then
        lf :: match s' with
              | c' :: s'' =>
                  if (c' =? lf)%N then universal_newlines s''
                  else universal_newlines s'
              | [] => []
              end
      else c :: universal_newlines s'
  end.

(** [fid.readlines()]: the lines of a text, each with its newline. *)
Fixpoint readlines (s : pystr) : list pystr :=
  match s with
  | [] => []
  | c :: s' =>
      if (c =? lf)%N then [c] :: readlines s'
      else match readlines s' with
           | [] => [[c]]
           | l :: ls => (c :: l) :: ls
           end
  end.

(** The bound of a slice, as [PySlice_AdjustIndices] clamps it for a
    step of one. *)
Definition slice_index (len i : Z) : Z :=
  if i <? 0 then Z.max 0 (i + len) else Z.min i len.

(** [l[start:stop]]; [None] is an omitted bound. *)
Definition slice {A} (l : list A) (start stop : option Z) : list A :=
  let len := Z.of_nat (length l) in
  let lo := from_option (slice_index len) 0 start in
  let hi := from_option (slice_index len) len stop in
  take (Z.to_nat (hi - lo)) (drop (Z.to_nat lo) l).

(** [enumerate(l)] *)
Definition enumerate {A} (l : list A) : list (Z * A) :=
  imap (λ i v, (Z.of_nat i, v)) l.

(** [{v: i for i, v in pairs}]: a later pair overwrites an earlier one
    with the same key. *)
Definition dict_of {A} `{Countable A} (pairs : list (Z * A)) : gmap A Z :=
  foldl (λ m iv, <[iv.2 := iv.1]> m) ∅ pairs.

(** [d[k]] *)
Definition getitem {A} `{Countable A} (d : gmap A Z) (k : A) : result Z :=
  match d !! k with
  | Some i => Ok i
  | None => Raise KeyError
  end.

(** [numpy.uint32(i)], with the wrap-around of a 32-bit unsigned. *)
Definition uint32 (i : Z) : Z := i mod 2 ^ 32.

End Py.

(** ** The environment: file system and network *)

(** [files] maps the path of a regular file to its bytes, [dirs] holds the
    directories made with [mkdir]; a directory also exists as soon as a
    file or a directory lies below it.  [remote] is what the network
    serves, by URL, and [net_log] records every request. *)
Record world : Type := World {
  files : gmap string (list byte);
  dirs : gset string;
  remote : gmap string (list byte);
  net_log : list string;
}.

(** Code with effects: it reads and changes the world, and may raise. *)
Definition M (A : Type) : Type := world → result A * world.

Definition ret {A} (a : A) : M A := λ w, (Ok a, w).
Definition raise {A} (e : exn) : M A := λ w, (Raise e, w).
Definition bind {A B} (c : M A) (k : A → M B) : M B :=
  λ w, match c w with
       | (Ok a, w') => k a w'
       | (Raise e, w') => (Raise e, w')
       end.
Definition lift {A} (r : result A) : M A := λ w, (r, w).

Notation "'let*' x := c1 'in' c2" := (bind c1 (λ x, c2))
  (at level 10, x pattern, c1 at level 100, c2 at level 200).
Notation "c1 ;; c2" := (bind c1 (λ _, c2))
  (at level 100, c2 at level 200, right associativity).

(** [[f x for x in l]] for an [f] with effects. *)
Fixpoint mapM_world {A B} (f : A → M B) (l : list A) : M (list B) :=
  match l with
  | [] => ret []
  | x :: l' => let* y := f x in let* ys := mapM_world f l' in ret (y :: ys)
  end.

Module Os.

Definition sep : ascii := "/"%char.

Definition startswith_sep (p : string) : bool :=
  match p with
  | String c _ => Ascii.eqb c sep
  | EmptyString => false
  end.

Fixpoint endswith_sep (p : string) : bool :=
  match p with
  | EmptyString => false
  | String c EmptyString => Ascii.eqb c sep
  | String _ p' => endswith_sep p'
  end.

(** [os.path.join(a, b)] *)
Definition join (a b : string) : string :=
  if startswith_sep b then b
  else if bool_decide (a = "") || endswith_sep a then a +:+ b
  else a +:+ "/" +:+ b.

Fixpoint has_sep (p : string) : bool :=
  match p with
  | EmptyString => false
  | String c p' => Ascii.eqb c sep || has_sep p'
  end.

(** [p[: p.rfind("/") + 1]] *)
Fixpoint upto_last_sep (p : string) : string :=
  match p with
  | EmptyString => EmptyString
  | String c p' => if has_sep p then String c (upto_last_sep p') else EmptyString
  end.

Fixpoint all_sep (p : string) : bool :=
  match p with
  | EmptyString => true
  | String c p' => Ascii.eqb c sep && all_sep p'
  end.

Fixpoint rstrip_sep (p : string) : string :=
  match p with
  | EmptyString => EmptyString
  | String c p' =>
      match rstrip_sep p' with
      | EmptyString => if Ascii.eqb c sep then EmptyString else String c EmptyString
      | r => String c r
      end
  end.

(** [os.path.dirname(p)] *)
Definition dirname (p : string) : string :=
  let head := upto_last_sep p in
  if all_sep head then head else rstrip_sep head.

(** The path of a directory, with the separator at its end. *)
Definition as_dir (p : string) : string :=
  if endswith_sep p then p else p +:+ "/".

(** [q] lies below the directory [p]. *)
Definition below (p q : string) : bool :=
  bool_decide (p ≠ q) && String.prefix (as_dir p) q.

(** [os.path.isdir(p)]; the root and the current directory [""] always
    exist. *)
Definition isdir (w : world) (p : string) : bool :=
  bool_decide (p = "/") || bool_decide (p = "") || bool_decide (p ∈ dirs w)
  || existsb (below p) (elements (dom (files w)))
  || existsb (below p) (elements (dirs w)).

Definition isfile (w : world) (p : string) : bool :=
  bool_decide (p ∈ dom (files w)).

(** [os.path.exists(p)] *)
Definition path_exists (p : string) : M bool :=
  λ w, (Ok (isfile w p || isdir w p), w).

(** [os.mkdir(p)] *)
Definition mkdir (p : string) : M unit :=
  λ w, if isfile w p || isdir w p then (Raise FileExistsError, w)
       else if negb (isdir w (dirname p)) then (Raise FileNotFoundError, w)
       else (Ok tt, World (files w) ({[p]} ∪ dirs w) (remote w) (net_log w)).

(** [open(p, "rb").read()] *)
Definition read_bytes (p : string) : M (list byte) :=
  λ w, match files w !! p with
       | Some b => (Ok b, w)
       | None => (Raise (if isdir w p then IsADirectoryError else FileNotFoundError), w)
       end.

(** [open(p, "wb").write(b)] *)
Definition write_bytes (p : string) (b : list byte) : M unit :=
  λ w, if isdir w p then (Raise IsADirectoryError, w)
       else if negb (isdir w (dirname p)) then (Raise FileNotFoundError, w)
       else (Ok tt, World (<[p := b]> (files w)) (dirs w) (remote w) (net_log w)).

(** [open(p, "r").read()]: the bytes decoded, newlines translated. *)
Definition read_text (p : string) : M pystr :=
  let* b := read_bytes p in
  match Py.utf8_decode b with
  | Some t => ret (Py.universal_newlines t)
  | None => raise UnicodeDecodeError
  end.

End Os.

#[export] Instance byte_eq_dec : EqDecision byte := Byte.byte_eq_dec.
#[export] Instance byte_countable : Countable byte :=
  inj_countable Byte.to_N Byte.of_N Byte.of_to_N.

(** What the loader takes from its runtime without fixing it: the order
    in which a [set] is iterated (any order, each element once), and the
    reader of zip archives, which gives the file members of an archive
    with their relative paths, in archive order ([None]: not a zip
    file). *)
Class Runtime : Type := {
  set_iter : ∀ A `{Countable A}, gset A → list A;
  set_iter_perm : ∀ A `{Countable A} (s : gset A), set_iter A s ≡ₚ elements s;
  zip_members : list byte → option (list (string * list byte));
}.
Arguments set_iter {_ A _ _} s.

Module Request.

(** [request.urlopen(url).read()] *)
Definition urlopen_read (url : string) : M (list byte) :=
  λ w, let w' := World (files w) (dirs w) (remote w) (net_log w ++ [url]) in
       match remote w !! url with
       | Some b => (Ok b, w')
       | None => (Raise URLError, w')
       end.

(** [request.urlretrieve(url, out_file)] *)
Definition urlretrieve (url out_file : string) : M unit :=
  let* b := urlopen_read url in Os.write_bytes out_file b.

End Request.

Module Zipfile.
Section Zipfile.
Context `{Runtime}.

(** [zipfile.ZipFile(io.BytesIO(b))] *)
Definition open_bytes (b : list byte) : M (list (string * list byte)) :=
  match zip_members b with
  | Some ms => ret ms
  | None => raise BadZipFile
  end.

(** [zipfile.ZipFile(path)] *)
Definition open_path (path : string) : M (list (string * list byte)) :=
  let* b := Os.read_bytes path in open_bytes b.

(** One step of [extractall]: the directories above the member are made
    as needed, then the file is written. *)
Definition extract (dir : string) (m : string * list byte) : M unit :=
  λ w, let target := Os.join dir m.1 in
       if Os.isdir w target then (Raise IsADirectoryError, w)
       else (Ok tt, World (<[target := m.2]> (files w)) (dirs w) (remote w) (net_log w)).

(** [zf.extractall(dir)] *)
Definition extractall (zf : list (string * list byte)) (dir : string) : M unit :=
  let* _ := mapM_world (extract dir) zf in ret tt.

(** The content of the last member of that name. *)
Definition member (zf : list (string * list byte)) (name : string)
    : option (list byte) :=
  foldl (λ acc m, if bool_decide (m.1 = name) then Some m.2 else acc) None zf.

(** [zf.read(name)] *)
Definition read (zf : list (string * list byte)) (name : string) : M (list byte) :=
  match member zf name with
  | Some b => ret b
  | None => raise KeyError
  end.

End Zipfile.
End Zipfile.

(** ** The loader *)

(** What [load_dataset] returns: the vocabulary and the encoded splits.
    The keys of the vocabulary are bytes for enwik8 and words for the
    other corpora. *)
Inductive dataset : Type :=
| Chars (vocab : gmap byte Z) (train valid test : list Z)
| Words (vocab : gmap pystr Z) (splits : list (list Z)).

Definition chars_dataset (r : gmap byte Z * list Z * list Z * list Z) : dataset :=
  let '(vocab, train, valid, test) := r in Chars vocab train valid test.

Definition words_dataset (r : gmap pystr Z * list (list Z)) : dataset :=
  let '(vocab, splits) := r in Words vocab splits.

Section Loader.
Context `{Runtime}.

Definition eos : pystr := str "<eos>".

(** [l.strip().split(" ")] *)
Definition line_tokens (l : pystr) : list pystr :=
  Py.split Py.space (Py.strip l).

(** The vocabulary of [_load], from the text of the training file. *)
Definition build_vocab (text : pystr) : gmap pystr Z :=
  let vocab : gset pystr :=
    list_to_set (concat (map line_tokens (Py.readlines text))) in
  let vocab := vocab ∪ {[eos]} in
  Py.dict_of (Py.enumerate (set_iter vocab)).

(** The body of [to_array] in [_load], from the text of the file. *)
Definition encode_text (vocab : gmap pystr Z) (text : pystr) : result (list Z) :=
  let lines := map line_tokens (Py.readlines text) in
  result_map (map Py.uint32)
    (result_mapM (Py.getitem vocab) (concat (map (λ line, line ++ [eos]) lines))).

(** [to_array] of [_load] *)
Definition load_to_array (save_dir : string) (vocab : gmap pystr Z)
    (dataset : string) : M (list Z) :=
  let* text := Os.read_text (Os.join save_dir dataset) in
  lift (encode_text vocab text).

Definition _load (save_dir : string) (filenames : list string)
    : M (gmap pystr Z * list (list Z)) :=
  let* first := lift (match filenames with
                      | fn :: _ => Ok fn
                      | [] => Raise IndexError
                      end) in
  let* text := Os.read_text (Os.join save_dir first) in
  let vocab := build_vocab text in
  let* datasets := mapM_world (load_to_array save_dir vocab) filenames in
  ret (vocab, datasets).

Definition wikitext_filenames : list string :=
  ["wiki.train.tokens"; "wiki.valid.tokens"; "wiki.test.tokens"].

Definition wikitext (dataset save_dir : string)
    : M (gmap pystr Z * list (list Z)) :=
  if bool_decide (dataset ∉ ["2"; "103"]) then raise ValueError
  else
    let filenames := wikitext_filenames in
    let dataname := "wikitext-" +:+ dataset in
    let data_dir := Os.join save_dir dataname in
    let* present := Os.path_exists data_dir in
    (if negb present then
       let base_url := "https://s3.amazonaws.com/research.metamind.io/wikitext/" in
       let zip_file_url := base_url +:+ dataname +:+ "-v1.zip" in
       let* r := Request.urlopen_read zip_file_url in
       let* zf := Zipfile.open_bytes r in
       Zipfile.extractall zf save_dir
     else ret tt) ;;
    _load data_dir filenames.

Definition ptb_filenames : list string :=
  ["ptb.train.txt"; "ptb.valid.txt"; "ptb.test.txt"].

(** [download_and_save] of [ptb] *)
Definition download_and_save (save_dir : string) : M unit :=
  let base_url := "https://raw.githubusercontent.com/wojzaremba/lstm/master/data/" in
  let* _ := mapM_world (λ name,
              let out_file := Os.join save_dir name in
              let* present := Os.path_exists out_file in
              if negb present then Request.urlretrieve (base_url +:+ name) out_file
              else ret tt) ptb_filenames in
  ret tt.

Definition ptb (save_dir : string) : M (gmap pystr Z * list (list Z)) :=
  let save_dir := Os.join save_dir "ptb" in
  let* present := Os.path_exists save_dir in
  (if negb present then Os.mkdir save_dir else ret tt) ;;
  download_and_save save_dir ;;
  _load save_dir ptb_filenames.

Definition num_test_bytes : Z := 5000000.

(** The three regions of the corpus, as [enwik8] slices them. *)
Definition enwik8_split (data : list byte) : list byte * list byte * list byte :=
  (Py.slice data None (Some (-2 * num_test_bytes)),
   Py.slice data (Some (-2 * num_test_bytes)) (Some (- num_test_bytes)),
   Py.slice data (Some (- num_test_bytes)) None).

(** The vocabulary of [enwik8], from the training region. *)
Definition enwik8_vocab (train_data : list byte) : gmap byte Z :=
  let vocab : gset byte := list_to_set train_data in
  Py.dict_of (Py.enumerate (set_iter vocab)).

(** [to_array] of [enwik8] *)
Definition enwik8_to_array (vocab : gmap byte Z) (dataset : list byte)
    : result (list Z) :=
  result_map (map Py.uint32) (result_mapM (Py.getitem vocab) dataset).

(** [enwik8] from the bytes of the corpus on. *)
Definition enwik8_encode (data : list byte)
    : result (gmap byte Z * list Z * list Z * list Z) :=
  let '(train_data, valid_data, test_data) := enwik8_split data in
  let vocab := enwik8_vocab train_data in
  result_bind (enwik8_to_array vocab train_data) (λ train,
  result_bind (enwik8_to_array vocab valid_data) (λ valid,
  result_bind (enwik8_to_array vocab test_data) (λ test,
  Ok (vocab, train, valid, test)))).

Definition enwik8 (save_dir : string)
    : M (gmap byte Z * list Z * list Z * list Z) :=
  let out_file := Os.join save_dir "enwik8.zip" in
  let* present := Os.path_exists out_file in
  (if negb present then
     Request.urlretrieve "http://mattmahoney.net/dc/enwik8.zip" out_file
   else ret tt) ;;
  let* zf := Zipfile.open_path out_file in
  let* data := Zipfile.read zf "enwik8" in
  lift (enwik8_encode data).

(** The default of every [save_dir] argument. *)
Definition default_save_dir : string := "/tmp".

Definition load_dataset (dataname : string) : M dataset :=
  if bool_decide (dataname = "enwik8") then
    let* r := enwik8 default_save_dir in ret (chars_dataset r)
  else if bool_decide (dataname = "ptb") then
    let* r := ptb default_save_dir in ret (words_dataset r)
  else if bool_decide (dataname = "wikitext2") then
    let* r := wikitext "2" default_save_dir in ret (words_dataset r)
  else
    let* r := wikitext "103" default_save_dir in ret (words_dataset r).

(** [assert cond] *)
Definition assert (cond : bool) : M unit :=
  if cond then ret tt else raise AssertionError.

(** The self-test under [if __name__ == "__main__"]. *)
Definition main : M unit :=
  let* (vocab, _, _, _) := enwik8 default_save_dir in
  assert (bool_decide (Z.of_nat (size vocab) = 205)) ;;
  let* (vocab, _) := ptb default_save_dir in
  assert (bool_decide (Z.of_nat (size vocab) = 10000)) ;;
  let* (vocab, _) := wikitext "2" default_save_dir in
  assert (bool_decide (Z.of_nat (size vocab) = 33279)).

End Loader.

(** ** A concrete runtime and small worlds, to run the loader on *)

(** A stand-in for the zip format: members are separated by the byte
    [xff], and a member is its name, the byte [x00], and its content. *)
Fixpoint split_bytes (sep : byte) (b : list byte) : list (list byte) :=
  match b with
  | [] => [[]]
  | c :: b' =>
      if bool_decide (c = sep) then [] :: split_bytes sep b'
      else match split_bytes sep b' with
           | [] => [[c]]
           | p :: ps => (c :: p) :: ps
           end
  end.

Fixpoint demo_member (b : list byte) : option (string * list byte) :=
  match b with
  | [] => None
  | c :: b' =>
      if bool_decide (c = x00) then Some (EmptyString, b')
      else match demo_member b' with
           | Some (name, content) => Some (String (ascii_of_byte c) name, content)
           | None => None
           end
  end.

Definition demo_zip_members (b : list byte) : option (list (string * list byte)) :=
  mapM demo_member (split_bytes xff b).

Definition demo_zip (ms : list (string * string)) : list byte :=
  concat (imap (λ i m, (if bool_decide (i = 0%nat) then [] else [xff])
                       ++ String.list_byte_of_string m.1 ++ [x00]
                       ++ String.list_byte_of_string m.2) ms).

#[export] Instance demo_runtime : Runtime := {|
  set_iter A _ _ s := elements s;
  set_iter_perm A _ _ s := reflexivity (elements s);
  zip_members := demo_zip_members;
|}.

(** The same runtime with every set iterated the other way round. *)
Definition demo_runtime_rev : Runtime := {|
  set_iter A _ _ s := reverse (elements s);
  set_iter_perm A _ _ s := reverse_Permutation (elements s);
  zip_members := demo_zip_members;
|}.

Definition lf : string := String "010"%char EmptyString.

(** A line that is blank but for its newline, and a training file that
    has two of them, with its text. *)
Definition blank_line : pystr := str (" " +:+ lf).
Definition demo_wiki_train_file : string :=
  " " +:+ lf +:+ " = Robert <unk> = " +:+ lf +:+ " " +:+ lf
  +:+ " Robert is an actor . " +:+ lf.
Definition demo_wiki_train : pystr := str demo_wiki_train_file.

(** A training file in UTF-8 with a letter outside ASCII, and a
    validation file that has the same word inside a line. *)
Definition demo_utf8_train : list byte :=
  String.list_byte_of_string "voil" ++ [xc3; xa0; x0a]
  ++ String.list_byte_of_string ("x" +:+ lf).
Definition demo_utf8_valid : list byte :=
  String.list_byte_of_string "voil" ++ [xc3; xa0]
  ++ String.list_byte_of_string (" x" +:+ lf).

(** A run of [k] spaces, and a tab. *)
Definition spaces (k : nat) : pystr := replicate k Py.space.

Definition tab : pystr := [9%N].

(** A corpus of 10,000,001 bytes. *)
Definition big_corpus : list byte := replicate (Z.to_nat 10000001) x00.

(** A world with an empty cache, whose network serves a tiny WikiText-2
    (with a blank line and a heading, as the real one has), a tiny PTB and
    an empty enwik8. *)
Definition demo_world : world := {|
  files := ∅;
  dirs := {["/tmp"]};
  remote := list_to_map [
    ("https://s3.amazonaws.com/research.metamind.io/wikitext/wikitext-2-v1.zip",
     demo_zip [
       ("wikitext-2/wiki.train.tokens", demo_wiki_train_file);
       ("wikitext-2/wiki.valid.tokens", " = an actor = " +:+ lf);
       ("wikitext-2/wiki.test.tokens", " Robert is <unk> . " +:+ lf)]);
    ("https://raw.githubusercontent.com/wojzaremba/lstm/master/data/ptb.train.txt",
     String.list_byte_of_string (" aer banknote" +:+ lf +:+ " pierre <unk> N years old" +:+ lf));
    ("https://raw.githubusercontent.com/wojzaremba/lstm/master/data/ptb.valid.txt",
     String.list_byte_of_string (" N years" +:+ lf));
    ("https://raw.githubusercontent.com/wojzaremba/lstm/master/data/ptb.test.txt",
     String.list_byte_of_string (" pierre banknote" +:+ lf));
    ("https://s3.amazonaws.com/research.metamind.io/wikitext/wikitext-103-v1.zip",
     demo_zip [
       ("wikitext-103/wiki.train.tokens", " = Anna = " +:+ lf +:+ " Anna sings . " +:+ lf);
       ("wikitext-103/wiki.valid.tokens", " Anna = Anna " +:+ lf);
       ("wikitext-103/wiki.test.tokens", " . " +:+ lf)]);
    ("http://mattmahoney.net/dc/enwik8.zip", demo_zip [("enwik8", "")])];
  net_log := [];
|}.

(** A world whose PTB cache is in place, with a word in the validation
    file that the training file does not have. *)
Definition demo_oov_world : world := {|
  files := list_to_map [
    ("/tmp/ptb/ptb.train.txt", String.list_byte_of_string (" aer banknote" +:+ lf));
    ("/tmp/ptb/ptb.valid.txt", String.list_byte_of_string (" aer calloway" +:+ lf));
    ("/tmp/ptb/ptb.test.txt", String.list_byte_of_string (" banknote" +:+ lf))];
  dirs := {["/tmp"]};
  remote := ∅;
  net_log := [];
|}.

(** A world whose PTB cache is in place and in UTF-8: a word with a
    letter outside ASCII ends a line of the training file and stands
    inside a line of the validation file. *)
Definition demo_utf8_world : world := {|
  files := list_to_map [
    ("/tmp/ptb/ptb.train.txt", demo_utf8_train);
    ("/tmp/ptb/ptb.valid.txt", demo_utf8_valid);
    ("/tmp/ptb/ptb.test.txt", String.list_byte_of_string ("x" +:+ lf))];
  dirs := {["/tmp"]};
  remote := ∅;
  net_log := [];
|}.

(** A world whose PTB training file is not UTF-8. *)
Definition demo_latin1_world : world := {|
  files := list_to_map [
    ("/tmp/ptb/ptb.train.txt", [xff; x0a]);
    ("/tmp/ptb/ptb.valid.txt", [x0a]);
    ("/tmp/ptb/ptb.test.txt", [x0a])];
  dirs := {["/tmp"]};
  remote := ∅;
  net_log := [];
|}.

(** A world whose PTB training file has one line, which starts with two
    spaces. *)
Definition demo_indent_world : world := {|
  files := list_to_map [
    ("/tmp/ptb/ptb.train.txt", String.list_byte_of_string ("  a" +:+ lf));
    ("/tmp/ptb/ptb.valid.txt", String.list_byte_of_string ("a" +:+ lf));
    ("/tmp/ptb/ptb.test.txt", String.list_byte_of_string ("a" +:+ lf))];
  dirs := {["/tmp"]};
  remote := ∅;
  net_log := [];
|}.

(** A world whose WikiText-2 cache is in place, with blank lines in the
    training and in the validation file. *)
Definition demo_wiki_world : world := {|
  files := list_to_map [
    ("/tmp/wikitext-2/wiki.train.tokens", String.list_byte_of_string demo_wiki_train_file);
    ("/tmp/wikitext-2/wiki.valid.tokens",
     String.list_byte_of_string (" " +:+ lf +:+ " = an actor = " +:+ lf));
    ("/tmp/wikitext-2/wiki.test.tokens",
     String.list_byte_of_string (" Robert is <unk> . " +:+ lf))];
  dirs := {["/tmp"]};
  remote := ∅;
  net_log := [];
|}.

(** ** Notions of the specification *)

(** Modelled on the specification's words, "whitespace-delimited tokens":
    the maximal runs of characters that are not whitespace, as
    [str.split()] with no argument gives them. *)
Definition ws_tokens (l : pystr) : list pystr :=
  filter (λ w, w ≠ []) (Py.split_on Py.isspace l).

Section Notions.
Context `{Runtime}.

(** The ids one line contributes to the array of [to_array]: those of
    its tokens, then that of the end-of-sequence marker. *)
Definition line_ids (vocab : gmap pystr Z) (l : pystr) : result (list Z) :=
  result_map (map Py.uint32)
    (result_mapM (Py.getitem vocab) (line_tokens l ++ [eos])).

(** Every token that [to_array] looks up for a text. *)
Definition text_tokens (text : pystr) : list pystr :=
  concat (map (λ line, line ++ [eos]) (map line_tokens (Py.readlines text))).

(** The file at [path] can be read as text in [w]: it is there, and its
    bytes are well-formed UTF-8. *)
Definition readable (w : world) (path : string) : Prop :=
  ∃ b, files w !! path = Some b ∧ is_Some (Py.utf8_decode b).

(** The text that [open(path, "r")] reads in [w], for a file that can be
    read. *)
Definition text_at (w : world) (path : string) : pystr :=
  Py.universal_newlines (default [] (files w !! path ≫= Py.utf8_decode)).

(** Every id of the array is an index into the vocabulary. *)
Definition ids_in_range {A} `{Countable A} (vocab : gmap A Z) (ids : list Z) : Prop :=
  Forall (λ i, 0 ≤ i < Z.of_nat (size vocab)) ids.

(** The vocabulary maps its keys one-to-one onto [0 .. len(vocab) - 1]. *)
Definition vocab_bijective {A} `{Countable A} (vocab : gmap A Z) : Prop :=
  (∀ k i, vocab !! k = Some i → 0 ≤ i < Z.of_nat (size vocab))
  ∧ (∀ k1 k2 i, vocab !! k1 = Some i → vocab !! k2 = Some i → k1 = k2)
  ∧ (∀ i, 0 ≤ i < Z.of_nat (size vocab) → ∃ k, vocab !! k = Some i).

Definition dataset_in_range (d : dataset) : Prop :=
  match d with
  | Chars vocab train valid test =>
      ids_in_range vocab train ∧ ids_in_range vocab valid ∧ ids_in_range vocab test
  | Words vocab splits => Forall (ids_in_range vocab) splits
  end.

Definition dataset_vocab_bijective (d : dataset) : Prop :=
  match d with
  | Chars vocab _ _ _ => vocab_bijective vocab
  | Words vocab _ => vocab_bijective vocab ∧ is_Some (vocab !! eos)
  end.

(** What [_load] returns is well formed. *)
Definition words_ok (r : gmap pystr Z * list (list Z)) : Prop :=
  vocab_bijective r.1 ∧ is_Some (r.1 !! eos) ∧ Forall (ids_in_range r.1) r.2.

(** A token of the file [fn] that the vocabulary of the training file
    lacks. *)
Definition absent_token (w : world) (dir train fn : string) (tok : pystr) : Prop :=
  tok ∈ text_tokens (text_at w (Os.join dir fn))
  ∧ build_vocab (text_at w (Os.join dir train)) !! tok = None.

(** Whenever [c] returns, what it returns satisfies [P]. *)
Definition returns {A} (c : M A) (P : A → Prop) : Prop :=
  ∀ w a w', c w = (Ok a, w') → P a.

(** Whenever [c] raises, the exception satisfies [P]. *)
Definition raises {A} (c : M A) (P : exn → Prop) : Prop :=
  ∀ w e w', c w = (Raise e, w') → P e.

(** [c] leaves the world as it found it. *)
Definition read_only {A} (c : M A) : Prop := ∀ w, (c w).2 = w.

(** The directory and the files a word-level corpus is cached in. *)
Definition corpus_dir (dataname : string) : string :=
  if bool_decide (dataname = "ptb") then "/tmp/ptb"
  else if bool_decide (dataname = "wikitext2") then "/tmp/wikitext-2"
  else "/tmp/wikitext-103".

Definition corpus_files (dataname : string) : list string :=
  if bool_decide (dataname = "ptb") then ptb_filenames else wikitext_filenames.

Definition corpus_train (dataname : string) : string :=
  if bool_decide (dataname = "ptb") then "ptb.train.txt" else "wiki.train.tokens".

(** Two results of one shape: vocabularies of one size, arrays of the
    same lengths. *)
Definition same_shape (d d' : dataset) : Prop :=
  match d, d' with
  | Chars vocab train valid test, Chars vocab' train' valid' test' =>
      size vocab = size vocab'
      ∧ length train = length train'
      ∧ length valid = length valid'
      ∧ length test = length test'
  | Words vocab splits, Words vocab' splits' =>
      size vocab = size vocab'
      ∧ Forall2 (λ ids ids', length ids = length ids') splits splits'
  | _, _ => False
  end.

(** The cache of a corpus is populated, in the sense of each loader's
    own test. *)
Definition cache_populated (dataname : string) (w : world) : Prop :=
  if bool_decide (dataname = "enwik8") then
    (Os.path_exists (Os.join default_save_dir "enwik8.zip") w).1 = Ok true
  else if bool_decide (dataname = "ptb") then
    ∀ name, name ∈ ptb_filenames →
      (Os.path_exists (Os.join (Os.join default_save_dir "ptb") name) w).1 = Ok true
  else if bool_decide (dataname = "wikitext2") then
    (Os.path_exists (Os.join default_save_dir "wikitext-2") w).1 = Ok true
  else
    (Os.path_exists (Os.join default_save_dir "wikitext-103") w).1 = Ok true.

End Notions.

(** The exceptions of the file system, the network and the archives, and
    the lookup error: all that a loader raises once its arguments are
    accepted. *)
Definition load_error (e : exn) : Prop :=
  e ∈ [KeyError; IndexError; FileNotFoundError; IsADirectoryError;
       FileExistsError; URLError; BadZipFile; UnicodeDecodeError].

(** * Properties *)

(** ** The built-ins at work *)

Example strip_ex : Py.strip (str "  aer  banknote ") = str "aer  banknote".
Proof. reflexivity. Qed.
Example split_ex :
  Py.split Py.space (str "aer  banknote") = [str "aer"; []; str "banknote"].
Proof. reflexivity. Qed.
Example split_empty_ex : Py.split Py.space [] = [[]].
Proof. reflexivity. Qed.
Example utf8_ex :
  Py.utf8_decode [x61; xc3; xa0; xe2; x80; x93; xf0; x9f; x98; x80]
  = Some [97; 224; 8211; 128512]%N.
Proof. reflexivity. Qed.
Example utf8_invalid_ex :
  Py.utf8_decode [xff; x0a] = None ∧ Py.utf8_decode [xc0; x80] = None
  ∧ Py.utf8_decode [xed; xa0; x80] = None ∧ Py.utf8_decode [xe2; x80] = None.
Proof. repeat split; reflexivity. Qed.
Example slice_ex : Py.slice [1; 2; 3; 4; 5] (Some (-4)) (Some (-2)) = [2; 3].
Proof. reflexivity. Qed.


(** ** Exceptions and [result] *)

Lemma result_bind_Ok {A B} (r : result A) (k : A → result B) (b : B) :
  result_bind r k = Ok b ↔ ∃ a, r = Ok a ∧ k a = Ok b.
Proof.
  destruct r as [a|e]; simpl; split.
  - eauto.
  - by intros (? & [= ->] & ?).
  - done.
  - by intros (? & ? & ?).
Qed.

Lemma result_map_Ok {A B} (f : A → B) (r : result A) (b : B) :
  result_map f r = Ok b ↔ ∃ a, r = Ok a ∧ b = f a.
Proof.
  unfold result_map. rewrite result_bind_Ok.
  split; intros (a & ? & ?); exists a; split; congruence.
Qed.

Lemma result_map_Raise {A B} (f : A → B) (r : result A) (e : exn) :
  result_map f r = Raise e ↔ r = Raise e.
Proof. destruct r; simpl; split; congruence. Qed.

Lemma result_mapM_Ok {A B} (f : A → result B) (l : list A) (ys : list B) :
  result_mapM f l = Ok ys ↔ Forall2 (λ x y, f x = Ok y) l ys.
Proof.
  revert ys. induction l as [|x l IH]; intros ys; simpl.
  - split; [intros [= <-]; constructor | by inversion 1].
  - rewrite result_bind_Ok. split.
    + intros (y & Hy & Hrest). apply result_bind_Ok in Hrest as (ys' & Hys' & [= <-]).
      constructor; [done | by apply IH].
    + inversion 1 as [|? y ? ys' Hy Hys']; subst. exists y. split; [done|].
      apply IH in Hys'. by rewrite Hys'.
Qed.

Lemma result_mapM_Raise {A B} (f : A → result B) (l : list A) (e : exn) :
  result_mapM f l = Raise e → ∃ x, x ∈ l ∧ f x = Raise e.
Proof.
  induction l as [|x l IH]; simpl; [done|].
  destruct (f x) as [y|e'] eqn:Hx; simpl.
  - destruct (result_mapM f l) as [ys|e'] eqn:Hl; simpl; [done|].
    intros [= ->]. destruct IH as (x' & ? & ?); [done|].
    exists x'. split; [by right | done].
  - intros [= ->]. exists x. split; [by left | done].
Qed.

Lemma result_mapM_app {A B} (f : A → result B) (l1 l2 : list A) :
  result_mapM f (l1 ++ l2) =
  result_bind (result_mapM f l1) (λ ys1,
  result_bind (result_mapM f l2) (λ ys2, Ok (ys1 ++ ys2))).
Proof.
  induction l1 as [|x l1 IH]; simpl.
  - by destruct (result_mapM f l2).
  - destruct (f x); simpl; [|done]. rewrite IH.
    destruct (result_mapM f l1); simpl; [|done].
    by destruct (result_mapM f l2).
Qed.

(** A lookup raises nothing but [KeyError], and only for a missing key. *)
Lemma getitem_Ok {A} `{Countable A} (d : gmap A Z) (k : A) (i : Z) :
  Py.getitem d k = Ok i ↔ d !! k = Some i.
Proof. unfold Py.getitem. destruct (d !! k); split; congruence. Qed.

Lemma getitem_Raise {A} `{Countable A} (d : gmap A Z) (k : A) (e : exn) :
  Py.getitem d k = Raise e ↔ e = KeyError ∧ d !! k = None.
Proof.
  unfold Py.getitem. destruct (d !! k); split; try congruence.
  - by intros [_ ?].
  - by intros [= <-].
  - by intros [-> _].
Qed.

Lemma lookups_Ok {A} `{Countable A} (d : gmap A Z) (l : list A) (ids : list Z) :
  result_mapM (Py.getitem d) l = Ok ids ↔ Forall2 (λ k i, d !! k = Some i) l ids.
Proof.
  rewrite result_mapM_Ok.
  split; intros Hl; eapply Forall2_impl; eauto; intros k i; by rewrite getitem_Ok.
Qed.

Lemma lookups_total {A} `{Countable A} (d : gmap A Z) (l : list A) :
  (∀ k, k ∈ l → is_Some (d !! k)) → ∃ ids, result_mapM (Py.getitem d) l = Ok ids.
Proof.
  induction l as [|k l IH]; intros Hl; simpl; [by eexists|].
  destruct (Hl k) as [i Hi]; [by left|].
  destruct IH as [ids Hids]; [intros; apply Hl; by right|].
  exists (i :: ids). unfold Py.getitem at 1. by rewrite Hi, Hids.
Qed.

Lemma lookups_Raise {A} `{Countable A} (d : gmap A Z) (l : list A) (e : exn) :
  result_mapM (Py.getitem d) l = Raise e ↔ e = KeyError ∧ ∃ k, k ∈ l ∧ d !! k = None.
Proof.
  split.
  - intros (k & Hk & He)%result_mapM_Raise. apply getitem_Raise in He as [-> ?]. eauto.
  - intros [-> (k & Hk & Hnone)].
    destruct (result_mapM (Py.getitem d) l) as [ids|e] eqn:Hl.
    + apply lookups_Ok in Hl. apply list_elem_of_lookup in Hk as [j Hj].
      destruct (Forall2_lookup_l _ _ _ _ _ Hl Hj) as (i & _ & Hi). congruence.
    + apply result_mapM_Raise in Hl as (k' & _ & He). by apply getitem_Raise in He as [-> _].
Qed.

(** ** Vocabularies: [{v: i for i, v in enumerate(s)}] *)

Lemma enumerate_snoc {A} (l : list A) (x : A) :
  Py.enumerate (l ++ [x]) = Py.enumerate l ++ [(Z.of_nat (length l), x)].
Proof.
  unfold Py.enumerate. rewrite imap_app. simpl. by rewrite Nat.add_0_r.
Qed.

Lemma dict_of_enumerate_snoc {A} `{Countable A} (l : list A) (x : A) :
  Py.dict_of (Py.enumerate (l ++ [x])) =
  <[x := Z.of_nat (length l)]> (Py.dict_of (Py.enumerate l)).
Proof. unfold Py.dict_of. by rewrite enumerate_snoc, foldl_app. Qed.

Lemma dict_of_enumerate_dom {A} `{Countable A} (l : list A) :
  dom (Py.dict_of (Py.enumerate l)) = list_to_set l.
Proof.
  induction l as [|x l IH] using rev_ind; [done|].
  rewrite dict_of_enumerate_snoc, dom_insert_L, IH, list_to_set_app_L. set_solver.
Qed.

Lemma dict_of_enumerate_lookup {A} `{Countable A} (l : list A) (k : A) (i : Z) :
  NoDup l →
  Py.dict_of (Py.enumerate l) !! k = Some i ↔ ∃ j, i = Z.of_nat j ∧ l !! j = Some k.
Proof.
  induction l as [|x l IH] using rev_ind; intros Hnd.
  - split; [done | by intros (? & _ & ?)].
  - apply NoDup_app in Hnd as (Hnd & Hx & _).
    rewrite dict_of_enumerate_snoc. destruct (decide (k = x)) as [->|Hne].
    + rewrite lookup_insert_eq. split.
      * intros [= <-]. exists (length l). split; [done|].
        by rewrite lookup_app_r, Nat.sub_diag by lia.
      * intros (j & -> & Hj). f_equal. f_equal.
        destruct (decide (j < length l)%nat) as [Hlt|Hge].
        -- rewrite lookup_app_l in Hj by done.
           exfalso. apply (Hx x); [by eapply list_elem_of_lookup_2 | by left].
        -- apply lookup_lt_Some in Hj. rewrite length_app in Hj. simpl in Hj. lia.
    + rewrite lookup_insert_ne by done. rewrite IH by done.
      split; intros (j & -> & Hj); exists j; (split; [done|]).
      * by apply lookup_app_l_Some.
      * apply lookup_app_Some in Hj as [?|[_ Hj]]; [done|].
        apply list_lookup_singleton_Some in Hj as [_ ?]. congruence.
Qed.

Lemma dict_of_enumerate_size {A} `{Countable A} (l : list A) :
  NoDup l → size (Py.dict_of (Py.enumerate l)) = length l.
Proof.
  intros Hnd. rewrite <- size_dom, dict_of_enumerate_dom.
  by apply size_list_to_set.
Qed.

Lemma dict_of_enumerate_bijective {A} `{Countable A} (l : list A) :
  NoDup l → vocab_bijective (Py.dict_of (Py.enumerate l)).
Proof.
  intros Hnd. unfold vocab_bijective. rewrite dict_of_enumerate_size by done.
  split; [|split].
  - intros k i (j & -> & Hj)%dict_of_enumerate_lookup; [|done].
    apply lookup_lt_Some in Hj. lia.
  - intros k1 k2 i (j1 & -> & Hj1)%dict_of_enumerate_lookup
      (j2 & Heq & Hj2)%dict_of_enumerate_lookup; try done.
    apply Nat2Z.inj in Heq as <-. congruence.
  - intros i Hi. destruct (lookup_lt_is_Some_2 l (Z.to_nat i)) as [k Hk]; [lia|].
    exists k. apply dict_of_enumerate_lookup; [done|].
    exists (Z.to_nat i). split; [lia | done].
Qed.

Section SetIter.
Context `{Runtime} {A : Type} `{Countable A}.
Implicit Types s : gset A.

Lemma set_iter_NoDup s : NoDup (set_iter s).
Proof. rewrite set_iter_perm. apply NoDup_elements. Qed.

Lemma elem_of_set_iter s x : x ∈ set_iter s ↔ x ∈ s.
Proof. rewrite set_iter_perm. apply elem_of_elements. Qed.

Lemma length_set_iter s : length (set_iter s) = size s.
Proof. by rewrite set_iter_perm. Qed.

Lemma vocab_of_set_dom s : dom (Py.dict_of (Py.enumerate (set_iter s))) = s.
Proof.
  rewrite dict_of_enumerate_dom. apply set_eq. intros x.
  by rewrite elem_of_list_to_set, elem_of_set_iter.
Qed.

Lemma vocab_of_set_size s : size (Py.dict_of (Py.enumerate (set_iter s))) = size s.
Proof. rewrite dict_of_enumerate_size by apply set_iter_NoDup. apply length_set_iter. Qed.

Lemma vocab_of_set_bijective s :
  vocab_bijective (Py.dict_of (Py.enumerate (set_iter s))).
Proof. apply dict_of_enumerate_bijective, set_iter_NoDup. Qed.

End SetIter.

(** ** The three regions of enwik8 *)

Section Enwik8Split.
Context `{Runtime}.

Lemma enwik8_split_large (data : list byte) :
  2 * num_test_bytes < Z.of_nat (length data) →
  enwik8_split data =
    (take (Z.to_nat (Z.of_nat (length data) - 2 * num_test_bytes)) data,
     take (Z.to_nat num_test_bytes)
       (drop (Z.to_nat (Z.of_nat (length data) - 2 * num_test_bytes)) data),
     drop (Z.to_nat (Z.of_nat (length data) - num_test_bytes)) data).
Proof.
  intros Hlen. assert (0 < num_test_bytes) as Hpos by done.
  unfold enwik8_split, Py.slice, Py.slice_index. cbn [from_option].
  generalize dependent num_test_bytes. intros n Hlen Hpos.
  set (len := Z.of_nat (length data)) in *.
  destruct (Z.ltb_spec (-2 * n) 0), (Z.ltb_spec (- n) 0); try lia.
  f_equal; [f_equal|].
  - rewrite drop_0. f_equal. lia.
  - f_equal; [lia|]. f_equal. lia.
  - rewrite take_ge.
    + f_equal. lia.
    + rewrite length_drop. lia.
Qed.

Lemma enwik8_to_array_length (vocab : gmap byte Z) (dataset : list byte) (ids : list Z) :
  enwik8_to_array vocab dataset = Ok ids → length ids = length dataset.
Proof.
  unfold enwik8_to_array. intros (raw & Hraw & ->)%result_map_Ok.
  apply lookups_Ok, Forall2_length in Hraw. by rewrite length_map.
Qed.

Lemma enwik8_encode_Ok (data : list byte) vocab train valid test :
  enwik8_encode data = Ok (vocab, train, valid, test) ↔
  vocab = enwik8_vocab (enwik8_split data).1.1
  ∧ enwik8_to_array vocab (enwik8_split data).1.1 = Ok train
  ∧ enwik8_to_array vocab (enwik8_split data).1.2 = Ok valid
  ∧ enwik8_to_array vocab (enwik8_split data).2 = Ok test.
Proof.
  unfold enwik8_encode. destruct (enwik8_split data) as [[tr va] te]. simpl.
  split.
  - intros (a & Ha & (b & Hb & (c & Hc & [= <- <- <- <-])%result_bind_Ok)%result_bind_Ok)%result_bind_Ok.
    done.
  - intros (-> & -> & -> & ->). done.
Qed.

End Enwik8Split.

(** C1.  A corpus of N > 10,000,000 bytes is cut by [enwik8] into three
    adjoining regions that together are the whole corpus: the first
    N - 10,000,000 bytes for training, the next 5,000,000 for validation,
    the last 5,000,000 for test.  When the load returns, its three arrays
    have the lengths of these regions, so they sum to N, and the
    validation and test arrays hold 5,000,000 elements each. *)
Theorem enwik8_three_regions `{Runtime} (data : list byte) :
  let N := Z.of_nat (length data) in
  10000000 < N →
  ∃ train_data valid_data test_data,
    enwik8_split data = (train_data, valid_data, test_data)
    ∧ train_data ++ valid_data ++ test_data = data
    ∧ Z.of_nat (length train_data) = N - 10000000
    ∧ Z.of_nat (length valid_data) = 5000000
    ∧ Z.of_nat (length test_data) = 5000000
    ∧ ∀ vocab train valid test,
        enwik8_encode data = Ok (vocab, train, valid, test) →
        Z.of_nat (length train) = N - 10000000
        ∧ Z.of_nat (length valid) = 5000000
        ∧ Z.of_nat (length test) = 5000000
        ∧ Z.of_nat (length train) + Z.of_nat (length valid) + Z.of_nat (length test) = N.
Proof.
  intros N HN. assert (num_test_bytes = 5000000) as Hn by done.
  assert (2 * num_test_bytes < Z.of_nat (length data)) as Hlarge by (fold N; lia).
  pose proof (enwik8_split_large data Hlarge) as Hsplit. fold N in Hsplit.
  set (a := Z.to_nat (N - 2 * num_test_bytes)) in *.
  set (b := Z.to_nat num_test_bytes) in *.
  assert (Z.to_nat (N - num_test_bytes) = (a + b)%nat) as Hab by lia.
  rewrite Hab in Hsplit.
  assert (length (take a data) = a) as Htrain by (rewrite length_take; lia).
  assert (length (take b (drop a data)) = b) as Hvalid
    by (rewrite length_take, length_drop; lia).
  assert (length (drop (a + b) data) = b) as Htest by (rewrite length_drop; lia).
  eexists _, _, _. split; [exact Hsplit|].
  split; [|split; [|split; [|split]]]; try lia.
  - rewrite <- drop_drop, take_drop. apply take_drop.
  - intros vocab train valid test (_ & Htr & Hva & Hte)%enwik8_encode_Ok.
    rewrite Hsplit in Htr, Hva, Hte. simpl in Htr, Hva, Hte.
    apply enwik8_to_array_length in Htr, Hva, Hte. lia.
Qed.

Lemma enwik8_three_regions_witness :
  ∃ train_data valid_data test_data,
    enwik8_split big_corpus = (train_data, valid_data, test_data)
    ∧ train_data ++ valid_data ++ test_data = big_corpus
    ∧ Z.of_nat (length train_data) = Z.of_nat (length big_corpus) - 10000000
    ∧ Z.of_nat (length valid_data) = 5000000
    ∧ Z.of_nat (length test_data) = 5000000
    ∧ ∀ vocab train valid test,
        enwik8_encode big_corpus = Ok (vocab, train, valid, test) →
        Z.of_nat (length train) = Z.of_nat (length big_corpus) - 10000000
        ∧ Z.of_nat (length valid) = 5000000
        ∧ Z.of_nat (length test) = 5000000
        ∧ Z.of_nat (length train) + Z.of_nat (length valid) + Z.of_nat (length test)
          = Z.of_nat (length big_corpus).
Proof.
  apply (enwik8_three_regions big_corpus).
  unfold big_corpus. rewrite length_replicate. lia.
Defined.

(** ** Tokenization *)

Lemma split_on_cons (p : N → bool) (s : pystr) :
  ∃ w ws, Py.split_on p s = w :: ws.
Proof.
  destruct s as [|c s]; simpl; [by eexists _, _|].
  destruct (p c); [by eexists _, _|].
  destruct (Py.split_on p s); by eexists _, _.
Qed.

(** Cutting is compositional: a separator between [s] and [t] puts the
    pieces of [s] before the pieces of [t]. *)
Lemma split_on_app_sep (p : N → bool) (s t : pystr) (c : N) :
  p c = true →
  Py.split_on p (s ++ c :: t) = Py.split_on p s ++ Py.split_on p t.
Proof.
  intros Hc. induction s as [|a s IH]; simpl.
  - by rewrite Hc.
  - destruct (p a); [by rewrite IH|]. rewrite IH.
    destruct (split_on_cons p s) as (w & ws & ->). done.
Qed.

Lemma split_spaces_l (k : nat) (t : pystr) :
  Py.split Py.space (spaces k ++ t) = replicate k [] ++ Py.split Py.space t.
Proof. induction k as [|k IH]; simpl; [done|]. by rewrite <- IH. Qed.

Lemma split_spaces (s t : pystr) (k : nat) :
  (1 ≤ k)%nat →
  Py.split Py.space (s ++ spaces k ++ t)
  = Py.split Py.space s ++ replicate (k - 1) [] ++ Py.split Py.space t.
Proof.
  destruct k as [|k]; [lia|]. intros _.
  replace (S k - 1)%nat with k by lia.
  change (spaces (S k) ++ t) with (Py.space :: (spaces k ++ t)).
  unfold Py.split at 1. rewrite split_on_app_sep by done.
  f_equal. apply split_spaces_l.
Qed.

Lemma split_on_ext (p q : N → bool) (s : pystr) :
  (∀ c, c ∈ s → p c = q c) →
  Py.split_on p s = Py.split_on q s.
Proof.
  induction s as [|c s IH]; intros Hpq; simpl; [done|].
  rewrite <- (Hpq c) by (by left).
  rewrite IH; [done|]. intros c' Hc'. apply Hpq. by right.
Qed.

Lemma split_on_lstrip (s : pystr) :
  ∃ k, Py.split_on Py.isspace s
       = replicate k [] ++ Py.split_on Py.isspace (Py.lstrip s).
Proof.
  induction s as [|c s [k IH]]; [by exists 0%nat|]. simpl.
  destruct (Py.isspace c) eqn:Hc.
  - exists (S k). by rewrite IH.
  - exists 0%nat. simpl. by rewrite Hc.
Qed.

Lemma split_on_step (p : N → bool) (c : N) (s : pystr) :
  Py.split_on p (c :: s) =
  if p c then [] :: Py.split_on p s
  else match Py.split_on p s with
       | [] => [[c]]
       | w :: ws => (c :: w) :: ws
       end.
Proof. done. Qed.

Lemma split_on_rstrip (s : pystr) :
  ∃ k, Py.split_on Py.isspace s
       = Py.split_on Py.isspace (Py.rstrip s) ++ replicate k [].
Proof.
  induction s as [|c s [k IH]]; [by exists 0%nat|].
  rewrite split_on_step, IH. cbn [Py.rstrip].
  destruct (split_on_cons Py.isspace (Py.rstrip s)) as (w & ws & Hw).
  destruct (Py.isspace c) eqn:Hc.
  - destruct (Py.rstrip s) as [|a r] eqn:Hr.
    + by exists (S k).
    + exists k. by rewrite (split_on_step _ c), Hc.
  - rewrite Hw. destruct (Py.rstrip s) as [|a r] eqn:Hr.
    + exists k. injection Hw as <- <-. by rewrite split_on_step, Hc.
    + exists k. by rewrite (split_on_step _ c), Hc, Hw.
Qed.

Lemma filter_replicate_empty (k : nat) :
  filter (λ w : pystr, w ≠ []) (replicate k []) = [].
Proof. induction k as [|k IH]; [done|]. simpl. by rewrite filter_cons_False by naive_solver. Qed.

(** Stripping a line leaves its whitespace-delimited tokens as they are. *)
Lemma ws_tokens_strip (l : pystr) : ws_tokens (Py.strip l) = ws_tokens l.
Proof.
  unfold ws_tokens, Py.strip.
  destruct (split_on_lstrip l) as [k1 ->].
  destruct (split_on_rstrip (Py.lstrip l)) as [k2 ->].
  by rewrite !filter_app, !filter_replicate_empty, app_nil_r.
Qed.

(** Where the only whitespace of the stripped line is single spaces
    between words, cutting at spaces and cutting at whitespace agree. *)
Lemma ws_tokens_line_tokens (l : pystr) :
  (∀ c, c ∈ Py.strip l → Py.isspace c = true → c = Py.space) →
  Forall (λ w, w ≠ []) (line_tokens l) →
  ws_tokens l = line_tokens l.
Proof.
  intros Hws Hne. rewrite <- ws_tokens_strip. unfold ws_tokens, line_tokens, Py.split in *.
  rewrite (split_on_ext Py.isspace (N.eqb Py.space) (Py.strip l)).
  - clear Hws. induction Hne as [|w ws Hw _ IH]; [done|].
    by rewrite filter_cons_True, IH.
  - intros c Hc. destruct (Py.isspace c) eqn:Hsp.
    + by rewrite (Hws c Hc Hsp).
    + destruct (N.eqb_spec Py.space c) as [<-|]; done.
Qed.

(** ** The array of a text, line by line *)

Lemma result_mapM_concat {A B} (f : A → result B) (ls : list (list A)) (ys : list B) :
  result_mapM f (concat ls) = Ok ys ↔
  ∃ yss, Forall2 (λ l r, result_mapM f l = Ok r) ls yss ∧ ys = concat yss.
Proof.
  revert ys. induction ls as [|l ls IH]; intros ys; simpl.
  - split.
    + intros [= <-]. exists []. split; [by constructor | done].
    + intros (yss & Hyss & ->). by inversion Hyss.
  - rewrite result_mapM_app. split.
    + intros (r & Hr & (rs & Hrs & [= <-])%result_bind_Ok)%result_bind_Ok.
      apply IH in Hrs as (yss & Hyss & ->).
      exists (r :: yss). split; [by constructor | done].
    + intros (yss & Hyss & ->). inversion Hyss as [|? r ? rs Hr Hrs]; subst.
      rewrite Hr. simpl.
      assert (result_mapM f (concat ls) = Ok (concat rs)) as -> by (apply IH; eauto).
      done.
Qed.

Lemma map_concat {A B} (f : A → B) (ls : list (list A)) :
  map f (concat ls) = concat (map (map f) ls).
Proof. induction ls as [|l ls IH]; [done|]. simpl. by rewrite map_app, IH. Qed.

Section Lines.
Context `{Runtime}.

Lemma line_ids_length (vocab : gmap pystr Z) (l : pystr) (r : list Z) :
  line_ids vocab l = Ok r → length r = (length (line_tokens l) + 1)%nat.
Proof.
  unfold line_ids. intros (raw & Hraw & ->)%result_map_Ok.
  apply lookups_Ok, Forall2_length in Hraw.
  rewrite length_map, <- Hraw, length_app. done.
Qed.

(** The array of a text is the ids of its lines, one line after the
    other. *)
Lemma encode_text_lines (vocab : gmap pystr Z) (text : pystr) (ids : list Z) :
  encode_text vocab text = Ok ids ↔
  ∃ idss, Forall2 (λ l r, line_ids vocab l = Ok r) (Py.readlines text) idss
          ∧ ids = concat idss.
Proof.
  unfold encode_text, line_ids. rewrite result_map_Ok. split.
  - intros (raw & (rss & Hrss & ->)%result_mapM_concat & ->).
    exists (map (map Py.uint32) rss). split.
    + rewrite !Forall2_fmap_l in Hrss. rewrite Forall2_fmap_r.
      eapply Forall2_impl; [exact Hrss|]. intros l r Hr. simpl in *. by rewrite Hr.
    + apply map_concat.
  - intros (idss & Hidss & ->).
    assert (∃ rss, Forall2 (λ l r, result_mapM (Py.getitem vocab) (line_tokens l ++ [eos]) = Ok r)
                     (Py.readlines text) rss ∧ idss = map (map Py.uint32) rss)
      as (rss & Hrss & ->).
    { induction Hidss as [|l r ls rs Hr _ (rss & Hrss & ->)].
      - exists []. split; [by constructor | done].
      - apply result_map_Ok in Hr as (raw & Hraw & ->).
        exists (raw :: rss). split; [by constructor | done]. }
    exists (concat rss). split.
    + apply result_mapM_concat. exists rss. split; [|done].
      by rewrite !Forall2_fmap_l.
    + symmetry. apply map_concat.
Qed.

End Lines.

(** C2, as the code has it.  In the array of a text, a line contributes
    one id for each piece that cutting the stripped line at every single
    space gives (a blank line has one empty piece, two adjacent spaces
    have an empty piece between them), and one more for the
    end-of-sequence marker.  Where the only whitespace inside the
    stripped line is single spaces between words, that is the number of
    whitespace-delimited tokens plus one. *)
Theorem line_id_count (vocab : gmap pystr Z) (text : pystr) (ids : list Z) :
  encode_text vocab text = Ok ids →
  ∃ idss,
    ids = concat idss
    ∧ Forall2 (λ l r,
        line_ids vocab l = Ok r
        ∧ length r = (length (Py.split Py.space (Py.strip l)) + 1)%nat
        ∧ ((∀ c, c ∈ Py.strip l → Py.isspace c = true → c = Py.space) →
           Forall (λ w, w ≠ []) (Py.split Py.space (Py.strip l)) →
           length r = (length (ws_tokens l) + 1)%nat))
      (Py.readlines text) idss.
Proof.
  intros (idss & Hidss & ->)%encode_text_lines. exists idss. split; [done|].
  eapply Forall2_impl; [exact Hidss|]. intros l r Hr. simpl in Hr.
  pose proof (line_ids_length _ _ _ Hr) as Hlen.
  split; [done|]. split; [done|].
  intros Hws Hne. by rewrite ws_tokens_line_tokens.
Qed.

Lemma line_id_count_witness :
  ∃ idss,
    [8; 0; 2; 3; 1; 2; 0; 8; 0; 3; 4; 6; 5; 7; 0] = concat idss
    ∧ Forall2 (λ l r,
        line_ids (build_vocab demo_wiki_train) l = Ok r
        ∧ length r = (length (Py.split Py.space (Py.strip l)) + 1)%nat
        ∧ ((∀ c, c ∈ Py.strip l → Py.isspace c = true → c = Py.space) →
           Forall (λ w, w ≠ []) (Py.split Py.space (Py.strip l)) →
           length r = (length (ws_tokens l) + 1)%nat))
      (Py.readlines demo_wiki_train) idss.
Proof.
  apply (line_id_count (build_vocab demo_wiki_train) demo_wiki_train).
  vm_compute. reflexivity.
Defined.

(** C2 fails as the specification words it: a blank line has no
    whitespace-delimited token, and yet it contributes two ids, that of
    the empty string and that of the end-of-sequence marker. *)
Lemma blank_line_contributes_two_ids :
  match load_dataset "wikitext2" demo_world with
  | (Ok (Words vocab _), _) =>
      result_map length (line_ids vocab blank_line) = Ok 2%nat
      ∧ (length (ws_tokens blank_line) + 1)%nat = 1%nat
  | _ => False
  end.
Proof. vm_compute. split; reflexivity. Qed.

(** ** The vocabulary of the word-level corpora *)

Lemma elem_of_concat_map {A B} (f : A → list B) (l : list A) (y : B) :
  y ∈ concat (map f l) ↔ ∃ x, x ∈ l ∧ y ∈ f x.
Proof.
  rewrite list_elem_of_In, in_concat. split.
  - intros (ys & (x & <- & Hx)%in_map_iff & Hy).
    exists x. by rewrite !list_elem_of_In.
  - intros (x & Hx & Hy). exists (f x). rewrite <- !list_elem_of_In. split; [|done].
    apply list_elem_of_In, in_map, list_elem_of_In, Hx.
Qed.

Section WordVocab.
Context `{Runtime}.

Lemma build_vocab_dom (text : pystr) :
  dom (build_vocab text)
  = list_to_set (concat (map line_tokens (Py.readlines text))) ∪ {[eos]}.
Proof. unfold build_vocab. apply vocab_of_set_dom. Qed.

Lemma build_vocab_lookup (text tok : pystr) :
  is_Some (build_vocab text !! tok) ↔
  tok = eos ∨ ∃ l, l ∈ Py.readlines text ∧ tok ∈ line_tokens l.
Proof.
  rewrite <- elem_of_dom, build_vocab_dom, elem_of_union, elem_of_singleton.
  rewrite elem_of_list_to_set, elem_of_concat_map. tauto.
Qed.

Lemma build_vocab_eos (text : pystr) : is_Some (build_vocab text !! eos).
Proof. apply build_vocab_lookup. by left. Qed.

Lemma build_vocab_token (text l tok : pystr) :
  l ∈ Py.readlines text → tok ∈ line_tokens l → is_Some (build_vocab text !! tok).
Proof. intros Hl Htok. apply build_vocab_lookup. eauto. Qed.

Lemma build_vocab_bijective (text : pystr) : vocab_bijective (build_vocab text).
Proof. apply vocab_of_set_bijective. Qed.

Lemma blank_line_tokens (l : pystr) :
  Py.strip l = [] → line_tokens l = [[]].
Proof. unfold line_tokens. by intros ->. Qed.

Lemma lstrip_ws (s l : pystr) :
  Forall (λ c, Py.isspace c = true) s → Py.lstrip (s ++ l) = Py.lstrip l.
Proof. induction 1 as [|c s Hc _ IH]; [done|]. simpl. by rewrite Hc. Qed.

Lemma lstrip_app (s t : pystr) :
  Py.lstrip (s ++ t)
  = match Py.lstrip s with [] => Py.lstrip t | r => r ++ t end.
Proof.
  induction s as [|c s IH]; [done|]. simpl. by destruct (Py.isspace c).
Qed.

Lemma rstrip_ws (s : pystr) :
  Forall (λ c, Py.isspace c = true) s → Py.rstrip s = [].
Proof. induction 1 as [|c s Hc _ IH]; [done|]. simpl. by rewrite IH, Hc. Qed.

Lemma rstrip_app_ws (s t : pystr) :
  Forall (λ c, Py.isspace c = true) t → Py.rstrip (s ++ t) = Py.rstrip s.
Proof.
  intros Ht. induction s as [|c s IH]; [by apply rstrip_ws|]. simpl. by rewrite IH.
Qed.

Lemma strip_ws (s1 s2 l : pystr) :
  Forall (λ c, Py.isspace c = true) s1 →
  Forall (λ c, Py.isspace c = true) s2 →
  Py.strip (s1 ++ l ++ s2) = Py.strip l.
Proof.
  intros Hs1 Hs2. unfold Py.strip. rewrite lstrip_ws, lstrip_app by done.
  destruct (Py.lstrip l) as [|c r].
  - pose proof (lstrip_ws s2 [] Hs2) as Hnil. rewrite app_nil_r in Hnil.
    by rewrite Hnil.
  - by apply rstrip_app_ws.
Qed.

(** Whitespace at the start and at the end of a line, spaces among it,
    is stripped before the line is cut. *)
Lemma line_tokens_outer_ws (s1 s2 l : pystr) :
  Forall (λ c, Py.isspace c = true) s1 →
  Forall (λ c, Py.isspace c = true) s2 →
  line_tokens (s1 ++ l ++ s2) = line_tokens l.
Proof. intros Hs1 Hs2. unfold line_tokens. by rewrite strip_ws. Qed.

(** A blank line, or two adjacent spaces inside a stripped line of the
    text, put the empty string into the vocabulary of the text. *)
Lemma build_vocab_empty_token (text l : pystr) :
  l ∈ Py.readlines text →
  (Py.strip l = [] ∨ ∃ s t, Py.strip l = s ++ spaces 2 ++ t) →
  is_Some (build_vocab text !! []).
Proof.
  intros Hl Hcase. apply (build_vocab_token text l); [done|].
  destruct Hcase as [Hblank|(s & t & Hst)].
  - rewrite blank_line_tokens by done. by left.
  - unfold line_tokens. rewrite Hst, (split_spaces s t 2) by lia. simpl.
    apply elem_of_app. right. by left.
Qed.

(** With the empty string in the vocabulary, a blank line has two ids. *)
Lemma blank_line_ids (vocab : gmap pystr Z) (l : pystr) (i j : Z) :
  vocab !! [] = Some i → vocab !! eos = Some j → Py.strip l = [] →
  line_ids vocab l = Ok [Py.uint32 i; Py.uint32 j].
Proof.
  intros Hi Hj Hblank. unfold line_ids. rewrite blank_line_tokens by done.
  simpl. unfold Py.getitem. by rewrite Hi, Hj.
Qed.

(** In the array of a text, under such a vocabulary, the ids of each
    blank line are these two. *)
Lemma encode_text_blank_lines (vocab : gmap pystr Z) (text : pystr) (ids : list Z)
    (i j : Z) :
  vocab !! [] = Some i → vocab !! eos = Some j →
  encode_text vocab text = Ok ids →
  ∃ idss,
    ids = concat idss
    ∧ Forall2 (λ l r, line_ids vocab l = Ok r
                      ∧ (Py.strip l = [] → r = [Py.uint32 i; Py.uint32 j]))
        (Py.readlines text) idss.
Proof.
  intros Hi Hj (idss & Hidss & ->)%encode_text_lines. exists idss. split; [done|].
  eapply Forall2_impl; [exact Hidss|]. intros l r Hr. simpl in Hr. split; [done|].
  intros Hblank. rewrite (blank_line_ids vocab l i j) in Hr by done. congruence.
Qed.

End WordVocab.

(** ** Code with effects *)

Lemma bind_Ok {A B} (c : M A) (k : A → M B) (w : world) (b : B) (w' : world) :
  bind c k w = (Ok b, w') ↔ ∃ a w1, c w = (Ok a, w1) ∧ k a w1 = (Ok b, w').
Proof.
  unfold bind. destruct (c w) as [[a|e] w1]; split.
  - eauto.
  - by intros (? & ? & [= -> ->] & ?).
  - done.
  - by intros (? & ? & ? & ?).
Qed.

Lemma bind_Raise {A B} (c : M A) (k : A → M B) (w : world) (e : exn) (w' : world) :
  bind c k w = (Raise e, w') ↔
  c w = (Raise e, w') ∨ ∃ a w1, c w = (Ok a, w1) ∧ k a w1 = (Raise e, w').
Proof.
  unfold bind. destruct (c w) as [[a|e1] w1]; split.
  - eauto.
  - by intros [?|(? & ? & [= -> ->] & ?)].
  - intros [= -> ->]. by left.
  - by intros [[= -> ->]|(? & ? & ? & ?)].
Qed.

Lemma bind_ret_map {A B} (c : M A) (f : A → B) (w : world) :
  (let* a := c in ret (f a)) w = (result_map f (c w).1, (c w).2).
Proof. unfold bind. by destruct (c w) as [[a|e] w1]. Qed.

(** An action that does not change the world runs as a pure function. *)
Lemma bind_pure {A B} (c : M A) (k : A → M B) (w : world) (r : result A) :
  c w = (r, w) →
  bind c k w = match r with Ok a => k a w | Raise e => (Raise e, w) end.
Proof. unfold bind. by intros ->. Qed.

Lemma mapM_world_pure {A B} (f : A → M B) (g : A → result B) (l : list A) (w : world) :
  (∀ x, x ∈ l → f x w = (g x, w)) →
  mapM_world f l w = (result_mapM g l, w).
Proof.
  induction l as [|x l IH]; intros Hf; [done|]. simpl.
  rewrite (bind_pure _ _ _ (g x)) by (apply Hf; by left).
  destruct (g x) as [y|e]; [|done]. simpl.
  rewrite (bind_pure _ _ _ (result_mapM g l)) by (apply IH; intros; apply Hf; by right).
  by destruct (result_mapM g l).
Qed.

Lemma returns_ret {A} (a : A) (P : A → Prop) : P a → returns (ret a) P.
Proof. by intros ? w ? w' [= <- _]. Qed.

Lemma returns_lift {A} (r : result A) (P : A → Prop) :
  (∀ a, r = Ok a → P a) → returns (lift r) P.
Proof. intros Hr w a w' [= -> _]. by apply Hr. Qed.

Lemma returns_bind {A B} (c : M A) (k : A → M B) (P : A → Prop) (Q : B → Prop) :
  returns c P → (∀ a, P a → returns (k a) Q) → returns (bind c k) Q.
Proof.
  intros Hc Hk w b w' (a & w1 & Ha & Hb)%bind_Ok.
  eapply Hk; [|exact Hb]. by eapply Hc.
Qed.

Lemma returns_seq {A B} (c : M A) (k : A → M B) (Q : B → Prop) :
  (∀ a, returns (k a) Q) → returns (bind c k) Q.
Proof. intros Hk. apply (returns_bind _ _ (λ _, True)); [done | auto]. Qed.

Lemma raises_ret {A} (a : A) (P : exn → Prop) : raises (ret a) P.
Proof. by intros w e w'. Qed.

Lemma raises_raise {A} (e : exn) (P : exn → Prop) : P e → raises (raise (A:=A) e) P.
Proof. by intros ? w ? w' [= <- _]. Qed.

Lemma raises_lift {A} (r : result A) (P : exn → Prop) :
  (∀ e, r = Raise e → P e) → raises (lift r) P.
Proof. intros Hr w e w' [= -> _]. by apply Hr. Qed.

Lemma raises_bind {A B} (c : M A) (k : A → M B) (P : exn → Prop) :
  raises c P → (∀ a, raises (k a) P) → raises (bind c k) P.
Proof.
  intros Hc Hk w e w' [He|(a & w1 & _ & He)]%bind_Raise.
  - by eapply Hc.
  - by eapply Hk.
Qed.

Lemma raises_mapM_world {A B} (f : A → M B) (l : list A) (P : exn → Prop) :
  (∀ x, raises (f x) P) → raises (mapM_world f l) P.
Proof.
  intros Hf. induction l as [|x l IH]; simpl; [apply raises_ret|].
  apply raises_bind; [apply Hf|]. intros y.
  apply raises_bind; [apply IH|]. intros ys. apply raises_ret.
Qed.

Lemma returns_mapM_world {A B} (f : A → M B) (l : list A) (P : B → Prop) :
  (∀ x, returns (f x) P) → returns (mapM_world f l) (Forall P).
Proof.
  intros Hf. induction l as [|x l IH]; simpl; [by apply returns_ret|].
  eapply returns_bind; [apply Hf|]. intros y Hy.
  eapply returns_bind; [apply IH|]. intros ys Hys.
  apply returns_ret. by constructor.
Qed.

Lemma read_only_ret {A} (a : A) : read_only (ret a).
Proof. done. Qed.

Lemma read_only_lift {A} (r : result A) : read_only (lift r).
Proof. done. Qed.

Lemma read_only_bind {A B} (c : M A) (k : A → M B) :
  read_only c → (∀ a, read_only (k a)) → read_only (bind c k).
Proof.
  intros Hc Hk w. unfold bind. specialize (Hc w).
  destruct (c w) as [[a|e] w1]; simpl in *; subst; [apply Hk | done].
Qed.

Lemma read_only_mapM_world {A B} (f : A → M B) (l : list A) :
  (∀ x, read_only (f x)) → read_only (mapM_world f l).
Proof.
  intros Hf. induction l as [|x l IH]; simpl; [done|].
  apply read_only_bind; [apply Hf|]. intros y.
  apply read_only_bind; [apply IH|]. done.
Qed.


Lemma raises_weaken {A} (c : M A) (P Q : exn → Prop) :
  raises c P → (∀ e, P e → Q e) → raises c Q.
Proof. intros Hc HPQ w e w' He. eapply HPQ, Hc, He. Qed.

Lemma returns_weaken {A} (c : M A) (P Q : A → Prop) :
  returns c P → (∀ a, P a → Q a) → returns c Q.
Proof. intros Hc HPQ w a w' Ha. eapply HPQ, Hc, Ha. Qed.

Lemma mapM_world_Ok_read_only {A B} (f : A → M B) (l : list A) w ys w' :
  (∀ x, read_only (f x)) →
  mapM_world f l w = (Ok ys, w') →
  w' = w ∧ Forall2 (λ x y, f x w = (Ok y, w)) l ys.
Proof.
  intros Hf. revert ys. induction l as [|x l IH]; intros ys; simpl.
  - intros [= <- <-]. split; [done | constructor].
  - intros (y & w1 & Hy & (ys' & w2 & Hys' & [= <- <-])%bind_Ok)%bind_Ok.
    pose proof (Hf x w) as Hw1. rewrite Hy in Hw1. simpl in Hw1. subst w1.
    apply IH in Hys' as [-> Hys']. split; [done|]. by constructor.
Qed.

(** ** The file system *)

Lemma path_exists_read_only (p : string) : read_only (Os.path_exists p).
Proof. done. Qed.

Lemma read_bytes_read_only (p : string) : read_only (Os.read_bytes p).
Proof. intros w. unfold Os.read_bytes. by destruct (files w !! p). Qed.

Lemma read_text_read_only (p : string) : read_only (Os.read_text p).
Proof.
  apply read_only_bind; [apply read_bytes_read_only|]. intros b w.
  by destruct (Py.utf8_decode b).
Qed.

Lemma read_bytes_raises (p : string) :
  raises (Os.read_bytes p) (λ e, e = IsADirectoryError ∨ e = FileNotFoundError).
Proof.
  intros w e w'. unfold Os.read_bytes.
  destruct (files w !! p); [done|]. intros [= <- _]. destruct (Os.isdir w p); auto.
Qed.

Lemma read_text_raises (p : string) :
  raises (Os.read_text p)
    (λ e, e = IsADirectoryError ∨ e = FileNotFoundError ∨ e = UnicodeDecodeError).
Proof.
  apply raises_bind.
  - eapply raises_weaken; [apply read_bytes_raises|]. naive_solver.
  - intros b w e w'. destruct (Py.utf8_decode b); [done|]. intros [= <- _]. auto.
Qed.

Lemma path_exists_raises (p : string) (P : exn → Prop) : raises (Os.path_exists p) P.
Proof. by intros w e w'. Qed.

Lemma mkdir_raises (p : string) :
  raises (Os.mkdir p) (λ e, e = FileExistsError ∨ e = FileNotFoundError).
Proof.
  intros w e w'. unfold Os.mkdir.
  destruct (_ || _); [intros [= <- _]; auto|].
  destruct (negb _); [intros [= <- _]; auto | done].
Qed.

Lemma write_bytes_raises (p : string) (b : list byte) :
  raises (Os.write_bytes p b) (λ e, e = IsADirectoryError ∨ e = FileNotFoundError).
Proof.
  intros w e w'. unfold Os.write_bytes.
  destruct (Os.isdir w p); [intros [= <- _]; auto|].
  destruct (negb _); [intros [= <- _]; auto | done].
Qed.

Section TextFacts.
Context `{Runtime}.

Lemma readable_file (w : world) (p : string) :
  readable w p → is_Some (files w !! p).
Proof. intros (b & -> & _). eauto. Qed.

Lemma readable_decoded (w : world) (p : string) :
  readable w p ↔ is_Some (files w !! p ≫= Py.utf8_decode).
Proof.
  unfold readable. destruct (files w !! p) as [b|]; simpl; split.
  - by intros (b' & [= <-] & Hb).
  - eauto.
  - by intros (b & [=] & _).
  - by intros [t [=]].
Qed.

Lemma read_text_present (w : world) (p : string) :
  readable w p → Os.read_text p w = (Ok (text_at w p), w).
Proof.
  intros (b & Hb & [t Ht]).
  unfold Os.read_text, bind, Os.read_bytes, text_at. rewrite Hb. simpl. by rewrite Ht.
Qed.

Lemma read_text_Ok (w : world) (p : string) (t : pystr) (w' : world) :
  Os.read_text p w = (Ok t, w') → w' = w ∧ readable w p ∧ t = text_at w p.
Proof.
  unfold Os.read_text, bind, Os.read_bytes, text_at, readable.
  destruct (files w !! p) as [b|]; [|done]. simpl.
  destruct (Py.utf8_decode b) as [t'|] eqn:Hb; [|done]. intros [= <- <-]. eauto.
Qed.

(** A file that is there and is not UTF-8 cannot be read as text. *)
Lemma read_text_undecodable (w : world) (p : string) (b : list byte) :
  files w !! p = Some b → Py.utf8_decode b = None →
  Os.read_text p w = (Raise UnicodeDecodeError, w).
Proof.
  intros Hb Hdec. unfold Os.read_text, bind, Os.read_bytes. by rewrite Hb, Hdec.
Qed.

End TextFacts.

(** ** Encoding a text *)

Lemma uint32_range (i : Z) : 0 ≤ i → 0 ≤ Py.uint32 i ≤ i.
Proof.
  intros Hi. unfold Py.uint32. split.
  - apply Z.mod_pos_bound. done.
  - apply Z.mod_le; [done | done].
Qed.

Lemma lookups_in_range {A} `{Countable A} (vocab : gmap A Z) (l : list A) (raw : list Z) :
  vocab_bijective vocab →
  result_mapM (Py.getitem vocab) l = Ok raw →
  ids_in_range vocab (map Py.uint32 raw).
Proof.
  intros (Hrange & _) Hraw%lookups_Ok. unfold ids_in_range.
  induction Hraw as [|k i l raw Hk _ IH]; simpl; constructor; [|done].
  apply Hrange in Hk. pose proof (uint32_range i). lia.
Qed.

Section EncodeText.
Context `{Runtime}.

Lemma encode_text_in_range (vocab : gmap pystr Z) (text : pystr) (ids : list Z) :
  vocab_bijective vocab → encode_text vocab text = Ok ids → ids_in_range vocab ids.
Proof.
  unfold encode_text. intros Hbij (raw & Hraw & ->)%result_map_Ok.
  by eapply lookups_in_range.
Qed.

Lemma encode_text_Raise (vocab : gmap pystr Z) (text : pystr) (e : exn) :
  encode_text vocab text = Raise e ↔
  e = KeyError ∧ ∃ tok, tok ∈ text_tokens text ∧ vocab !! tok = None.
Proof. unfold encode_text. by rewrite result_map_Raise, lookups_Raise. Qed.

Lemma encode_text_total (vocab : gmap pystr Z) (text : pystr) :
  (∀ tok, tok ∈ text_tokens text → is_Some (vocab !! tok)) →
  ∃ ids, encode_text vocab text = Ok ids.
Proof.
  intros Hall. destruct (lookups_total vocab (text_tokens text) Hall) as [raw Hraw].
  exists (map Py.uint32 raw). unfold encode_text. fold (text_tokens text).
  by rewrite Hraw.
Qed.

Lemma elem_of_text_tokens (text tok : pystr) :
  tok ∈ text_tokens text ↔
  ∃ l, l ∈ Py.readlines text ∧ (tok ∈ line_tokens l ∨ tok = eos).
Proof.
  unfold text_tokens. rewrite map_map, elem_of_concat_map.
  split; intros (l & Hl & Htok); exists l; (split; [done|]);
    rewrite elem_of_app, list_elem_of_singleton in *; done.
Qed.

(** The training text holds no token that its own vocabulary lacks. *)
Lemma train_tokens_known (text tok : pystr) :
  tok ∈ text_tokens text → is_Some (build_vocab text !! tok).
Proof.
  intros (l & Hl & [Htok| ->])%elem_of_text_tokens.
  - by eapply build_vocab_token.
  - apply build_vocab_eos.
Qed.

End EncodeText.

(** ** [_load] *)

Section Load.
Context `{Runtime}.

Lemma load_to_array_read_only (dir : string) vocab (fn : string) :
  read_only (load_to_array dir vocab fn).
Proof.
  apply read_only_bind; [apply read_text_read_only | intros; apply read_only_lift].
Qed.

Lemma _load_read_only (dir : string) (fns : list string) : read_only (_load dir fns).
Proof.
  apply read_only_bind; [apply read_only_lift|]. intros first.
  apply read_only_bind; [apply read_text_read_only|]. intros text.
  apply read_only_bind; [|intros; apply read_only_ret].
  apply read_only_mapM_world. intros fn. apply load_to_array_read_only.
Qed.

Lemma load_to_array_present (dir : string) vocab (fn : string) (w : world) :
  readable w (Os.join dir fn) →
  load_to_array dir vocab fn w = (encode_text vocab (text_at w (Os.join dir fn)), w).
Proof.
  intros Hfn. unfold load_to_array.
  rewrite (bind_pure _ _ _ _ (read_text_present _ _ Hfn)). done.
Qed.

Lemma load_to_array_Ok (dir : string) vocab (fn : string) (w : world) ids w' :
  load_to_array dir vocab fn w = (Ok ids, w') →
  readable w (Os.join dir fn)
  ∧ encode_text vocab (text_at w (Os.join dir fn)) = Ok ids.
Proof.
  intros (text & w1 & (-> & Hfn & ->)%read_text_Ok & [= Hids _])%bind_Ok. done.
Qed.

(** With its files in place, [_load] is a function of their texts. *)
Lemma _load_present (dir first : string) (rest : list string) (w : world) :
  (∀ fn, fn ∈ first :: rest → readable w (Os.join dir fn)) →
  let vocab := build_vocab (text_at w (Os.join dir first)) in
  _load dir (first :: rest) w
  = (result_map (pair vocab)
       (result_mapM (λ fn, encode_text vocab (text_at w (Os.join dir fn)))
          (first :: rest)), w).
Proof.
  intros Hfiles vocab. unfold _load.
  rewrite (bind_pure _ _ _ (Ok first)) by done.
  rewrite (bind_pure _ _ _ _ (read_text_present _ _ (Hfiles first ltac:(by left)))).
  fold vocab.
  rewrite (bind_pure _ _ _ _
    (mapM_world_pure _ (λ fn, encode_text vocab (text_at w (Os.join dir fn))) _ _
       (λ fn Hfn, load_to_array_present dir vocab fn w (Hfiles fn Hfn)))).
  by destruct (result_mapM _ _).
Qed.

Lemma _load_Ok (dir : string) (fns : list string) (w : world) vocab arrays w' :
  _load dir fns w = (Ok (vocab, arrays), w') →
  w' = w
  ∧ (∀ fn, fn ∈ fns → readable w (Os.join dir fn))
  ∧ ∃ first rest,
      fns = first :: rest
      ∧ vocab = build_vocab (text_at w (Os.join dir first))
      ∧ Forall2 (λ fn ids, encode_text vocab (text_at w (Os.join dir fn)) = Ok ids)
          fns arrays.
Proof.
  intros Hload. pose proof (_load_read_only dir fns w) as Hw.
  rewrite Hload in Hw. simpl in Hw. subst w'. split; [done|].
  apply bind_Ok in Hload as (first & w1 & Hfirst & Hload).
  destruct fns as [|fn rest]; [done|]. injection Hfirst as <- <-.
  apply bind_Ok in Hload as (text & w1 & (-> & _ & ->)%read_text_Ok & Hload).
  apply bind_Ok in Hload as (ds & w1 & Hds & [= <- <- _]).
  apply mapM_world_Ok_read_only in Hds as [_ Hds];
    [|intros; apply load_to_array_read_only].
  split.
  - intros fn' Hfn'. apply list_elem_of_lookup in Hfn' as [i Hi].
    destruct (Forall2_lookup_l _ _ _ _ _ Hds Hi) as (ids & _ & Hids).
    by apply load_to_array_Ok in Hids as [? _].
  - exists fn, rest. split; [done|]. split; [done|].
    eapply Forall2_impl; [exact Hds|]. intros fn' ids Hids. simpl in Hids.
    by apply load_to_array_Ok in Hids as [_ ?].
Qed.

Lemma _load_returns (dir : string) (fns : list string) :
  returns (_load dir fns) (λ r,
    vocab_bijective r.1 ∧ is_Some (r.1 !! eos) ∧ Forall (ids_in_range r.1) r.2).
Proof.
  intros w [vocab arrays] w' Hload.
  apply _load_Ok in Hload as (_ & _ & first & rest & _ & -> & Harrays).
  simpl. split; [apply build_vocab_bijective|]. split; [apply build_vocab_eos|].
  apply Forall_forall. intros ids Hin. apply list_elem_of_lookup in Hin as [i Hi].
  destruct (Forall2_lookup_r _ _ _ _ _ Harrays Hi) as (fn & _ & Hids).
  eapply encode_text_in_range; [apply build_vocab_bijective | exact Hids].
Qed.

Lemma _load_raises (dir : string) (fns : list string) :
  raises (_load dir fns) (λ e,
    e = IndexError ∨ e = IsADirectoryError ∨ e = FileNotFoundError
    ∨ e = UnicodeDecodeError ∨ e = KeyError).
Proof.
  apply raises_bind.
  { apply raises_lift. destruct fns; [intros e [= <-]; auto | done]. }
  intros first. apply raises_bind.
  { eapply raises_weaken; [apply read_text_raises|]. naive_solver. }
  intros text. apply raises_bind; [|intros; apply raises_ret].
  apply raises_mapM_world. intros fn. apply raises_bind.
  { eapply raises_weaken; [apply read_text_raises|]. naive_solver. }
  intros t. apply raises_lift. intros e [-> _]%encode_text_Raise. auto.
Qed.

End Load.

(** ** The network and the archives *)

Lemma urlopen_read_raises (url : string) :
  raises (Request.urlopen_read url) (λ e, e = URLError).
Proof.
  intros w e w'. unfold Request.urlopen_read.
  destruct (remote w !! url); [done|]. by intros [= <- _].
Qed.

Lemma urlretrieve_raises (url out_file : string) :
  raises (Request.urlretrieve url out_file)
    (λ e, e = URLError ∨ e = IsADirectoryError ∨ e = FileNotFoundError).
Proof.
  apply raises_bind.
  - eapply raises_weaken; [apply urlopen_read_raises|]. naive_solver.
  - intros b. eapply raises_weaken; [apply write_bytes_raises|]. naive_solver.
Qed.

Section ZipFacts.
Context `{Runtime}.

Lemma open_bytes_raises (b : list byte) :
  raises (Zipfile.open_bytes b) (λ e, e = BadZipFile).
Proof.
  intros w e w'. unfold Zipfile.open_bytes.
  destruct (zip_members b); [done|]. by intros [= <- _].
Qed.

Lemma open_bytes_read_only (b : list byte) : read_only (Zipfile.open_bytes b).
Proof. intros w. unfold Zipfile.open_bytes. by destruct (zip_members b). Qed.

Lemma open_path_raises (p : string) :
  raises (Zipfile.open_path p)
    (λ e, e = IsADirectoryError ∨ e = FileNotFoundError ∨ e = BadZipFile).
Proof.
  apply raises_bind.
  - eapply raises_weaken; [apply read_bytes_raises|]. naive_solver.
  - intros b. eapply raises_weaken; [apply open_bytes_raises|]. naive_solver.
Qed.

Lemma open_path_read_only (p : string) : read_only (Zipfile.open_path p).
Proof.
  apply read_only_bind; [apply read_bytes_read_only | apply open_bytes_read_only].
Qed.

Lemma extractall_raises (zf : list (string * list byte)) (dir : string) :
  raises (Zipfile.extractall zf dir) (λ e, e = IsADirectoryError).
Proof.
  apply raises_bind; [|intros; apply raises_ret].
  apply raises_mapM_world. intros m w e w'. unfold Zipfile.extract.
  destruct (Os.isdir _ _); [by intros [= <- _] | done].
Qed.

Lemma zip_read_raises (zf : list (string * list byte)) (name : string) :
  raises (Zipfile.read zf name) (λ e, e = KeyError).
Proof.
  intros w e w'. unfold Zipfile.read.
  destruct (Zipfile.member _ _); [done|]. by intros [= <- _].
Qed.

Lemma zip_read_read_only (zf : list (string * list byte)) (name : string) :
  read_only (Zipfile.read zf name).
Proof. intros w. unfold Zipfile.read. by destruct (Zipfile.member _ _). Qed.

End ZipFacts.

(** ** enwik8 *)

Section Enwik8.
Context `{Runtime}.

Lemma enwik8_vocab_dom (train_data : list byte) :
  dom (enwik8_vocab train_data) = list_to_set train_data.
Proof. apply vocab_of_set_dom. Qed.

Lemma enwik8_vocab_lookup (train_data : list byte) (b : byte) :
  is_Some (enwik8_vocab train_data !! b) ↔ b ∈ train_data.
Proof. by rewrite <- elem_of_dom, enwik8_vocab_dom, elem_of_list_to_set. Qed.

Lemma enwik8_vocab_bijective (train_data : list byte) :
  vocab_bijective (enwik8_vocab train_data).
Proof. apply vocab_of_set_bijective. Qed.

Lemma enwik8_to_array_Raise (vocab : gmap byte Z) (dataset : list byte) (e : exn) :
  enwik8_to_array vocab dataset = Raise e ↔
  e = KeyError ∧ ∃ b, b ∈ dataset ∧ vocab !! b = None.
Proof. unfold enwik8_to_array. by rewrite result_map_Raise, lookups_Raise. Qed.

Lemma enwik8_to_array_total (vocab : gmap byte Z) (dataset : list byte) :
  (∀ b, b ∈ dataset → is_Some (vocab !! b)) →
  ∃ ids, enwik8_to_array vocab dataset = Ok ids.
Proof.
  intros Hall. destruct (lookups_total vocab dataset Hall) as [raw Hraw].
  exists (map Py.uint32 raw). unfold enwik8_to_array. by rewrite Hraw.
Qed.

(** The training region is always encoded. *)
Lemma enwik8_train_total (train_data : list byte) :
  ∃ ids, enwik8_to_array (enwik8_vocab train_data) train_data = Ok ids.
Proof. apply enwik8_to_array_total. intros b. by rewrite enwik8_vocab_lookup. Qed.

Lemma enwik8_to_array_in_range (vocab : gmap byte Z) (dataset : list byte) ids :
  vocab_bijective vocab → enwik8_to_array vocab dataset = Ok ids →
  ids_in_range vocab ids.
Proof.
  unfold enwik8_to_array. intros Hbij (raw & Hraw & ->)%result_map_Ok.
  by eapply lookups_in_range.
Qed.

Lemma enwik8_encode_Raise (data : list byte) (e : exn) :
  enwik8_encode data = Raise e ↔
  e = KeyError
  ∧ ∃ b, (b ∈ (enwik8_split data).1.2 ∨ b ∈ (enwik8_split data).2)
         ∧ b ∉ (enwik8_split data).1.1.
Proof.
  unfold enwik8_encode. destruct (enwik8_split data) as [[tr va] te]. simpl.
  destruct (enwik8_train_total tr) as [train ->]. simpl.
  destruct (enwik8_to_array (enwik8_vocab tr) va) as [valid|e1] eqn:Hva; simpl.
  - destruct (enwik8_to_array (enwik8_vocab tr) te) as [test|e2] eqn:Hte; simpl.
    + split; [done|]. intros [_ (b & [Hb|Hb] & Hnone)].
      * assert (enwik8_to_array (enwik8_vocab tr) va = Raise KeyError); [|congruence].
        apply enwik8_to_array_Raise. split; [done|]. exists b. split; [done|].
        apply eq_None_not_Some. by rewrite enwik8_vocab_lookup.
      * assert (enwik8_to_array (enwik8_vocab tr) te = Raise KeyError); [|congruence].
        apply enwik8_to_array_Raise. split; [done|]. exists b. split; [done|].
        apply eq_None_not_Some. by rewrite enwik8_vocab_lookup.
    + apply enwik8_to_array_Raise in Hte as [-> (b & Hb & Hnone)]. split.
      * intros [= <-]. split; [done|]. exists b. split; [by right|].
        rewrite <- enwik8_vocab_lookup. by rewrite Hnone; intros [].
      * by intros [-> _].
  - apply enwik8_to_array_Raise in Hva as [-> (b & Hb & Hnone)]. split.
    + intros [= <-]. split; [done|]. exists b. split; [by left|].
      rewrite <- enwik8_vocab_lookup. by rewrite Hnone; intros [].
    + by intros [-> _].
Qed.

Lemma enwik8_encode_returns (data : list byte) vocab train valid test :
  enwik8_encode data = Ok (vocab, train, valid, test) →
  dataset_in_range (Chars vocab train valid test)
  ∧ dataset_vocab_bijective (Chars vocab train valid test).
Proof.
  intros (-> & Htr & Hva & Hte)%enwik8_encode_Ok. simpl.
  pose proof (enwik8_vocab_bijective (enwik8_split data).1.1) as Hbij.
  split; [|done]. split; [|split]; by eapply enwik8_to_array_in_range.
Qed.

End Enwik8.

(** ** The loaders of the corpora *)

Lemma returns_raise {A} (e : exn) (P : A → Prop) : returns (raise e) P.
Proof. by intros w a w'. Qed.

Ltac load_error_leaf lem :=
  eapply raises_weaken; [apply lem|];
  unfold load_error; intros ? ?; set_solver.

Section Loaders.
Context `{Runtime}.

Lemma wikitext_returns (dataset save_dir : string) :
  returns (wikitext dataset save_dir) words_ok.
Proof.
  unfold wikitext. case_bool_decide; [apply returns_raise|].
  apply returns_seq. intros present. apply returns_seq. intros _.
  apply _load_returns.
Qed.

Lemma ptb_returns (save_dir : string) : returns (ptb save_dir) words_ok.
Proof.
  unfold ptb. apply returns_seq. intros present. apply returns_seq. intros _.
  apply returns_seq. intros _. apply _load_returns.
Qed.

Lemma enwik8_returns (save_dir : string) :
  returns (enwik8 save_dir) (λ r,
    dataset_in_range (chars_dataset r) ∧ dataset_vocab_bijective (chars_dataset r)).
Proof.
  unfold enwik8. apply returns_seq. intros present. apply returns_seq. intros _.
  apply returns_seq. intros zf. apply returns_seq. intros data.
  apply returns_lift. intros [[[vocab train] valid] test]. apply enwik8_encode_returns.
Qed.

Lemma load_dataset_returns (dataname : string) :
  returns (load_dataset dataname) (λ d, dataset_in_range d ∧ dataset_vocab_bijective d).
Proof.
  assert (∀ r, words_ok r →
    dataset_in_range (words_dataset r) ∧ dataset_vocab_bijective (words_dataset r))
    as Hwords by (intros [vocab splits] (? & ? & ?); simpl; auto).
  unfold load_dataset. repeat case_bool_decide.
  - eapply returns_bind; [apply enwik8_returns|]. intros r Hr. by apply returns_ret.
  - eapply returns_bind; [apply ptb_returns|]. intros r Hr. apply returns_ret; auto.
  - eapply returns_bind; [apply wikitext_returns|]. intros r Hr. apply returns_ret; auto.
  - eapply returns_bind; [apply wikitext_returns|]. intros r Hr. apply returns_ret; auto.
Qed.

(** What [wikitext] does once it has accepted its [dataset] argument. *)
Lemma wikitext_fetch_raises (dataname save_dir : string) :
  raises
    (let* r := Request.urlopen_read
                 ("https://s3.amazonaws.com/research.metamind.io/wikitext/"
                  +:+ dataname +:+ "-v1.zip") in
     let* zf := Zipfile.open_bytes r in
     Zipfile.extractall zf save_dir) load_error.
Proof.
  apply raises_bind; [load_error_leaf urlopen_read_raises|]. intros r.
  apply raises_bind; [load_error_leaf open_bytes_raises|]. intros zf.
  load_error_leaf extractall_raises.
Qed.

Lemma wikitext_raises (dataset save_dir : string) :
  dataset ∈ ["2"; "103"] → raises (wikitext dataset save_dir) load_error.
Proof.
  intros Hds. unfold wikitext. rewrite bool_decide_eq_false_2 by auto.
  apply raises_bind; [apply path_exists_raises|]. intros present.
  apply raises_bind.
  - destruct present; simpl; [apply raises_ret | apply wikitext_fetch_raises].
  - intros _. load_error_leaf _load_raises.
Qed.

Lemma ptb_raises (save_dir : string) : raises (ptb save_dir) load_error.
Proof.
  unfold ptb. apply raises_bind; [apply path_exists_raises|]. intros present.
  apply raises_bind.
  { destruct present; simpl; [apply raises_ret | load_error_leaf mkdir_raises]. }
  intros _. apply raises_bind.
  { apply raises_bind; [|intros; apply raises_ret].
    apply raises_mapM_world. intros name.
    apply raises_bind; [apply path_exists_raises|]. intros present'.
    destruct present'; simpl; [apply raises_ret | load_error_leaf urlretrieve_raises]. }
  intros _. load_error_leaf _load_raises.
Qed.

Lemma enwik8_raises (save_dir : string) : raises (enwik8 save_dir) load_error.
Proof.
  unfold enwik8. apply raises_bind; [apply path_exists_raises|]. intros present.
  apply raises_bind.
  { destruct present; simpl; [apply raises_ret | load_error_leaf urlretrieve_raises]. }
  intros _. apply raises_bind; [load_error_leaf open_path_raises|]. intros zf.
  apply raises_bind; [load_error_leaf zip_read_raises|]. intros data.
  apply raises_lift. intros e [-> _]%enwik8_encode_Raise. unfold load_error. set_solver.
Qed.

Lemma load_dataset_raises (dataname : string) :
  raises (load_dataset dataname) load_error.
Proof.
  unfold load_dataset. repeat case_bool_decide;
    (apply raises_bind; [|intros; apply raises_ret]).
  - apply enwik8_raises.
  - apply ptb_raises.
  - apply wikitext_raises. set_solver.
  - apply wikitext_raises. set_solver.
Qed.

(** The self-test returns only if each corpus loads and its vocabulary
    has the size the test asserts. *)
Lemma main_Ok (w w' : world) :
  main w = (Ok tt, w') →
  ∃ r1 w1 r2 w2 r3,
    enwik8 default_save_dir w = (Ok r1, w1)
    ∧ Z.of_nat (size r1.1.1.1) = 205
    ∧ ptb default_save_dir w1 = (Ok r2, w2)
    ∧ Z.of_nat (size r2.1) = 10000
    ∧ wikitext "2" default_save_dir w2 = (Ok r3, w')
    ∧ Z.of_nat (size r3.1) = 33279.
Proof.
  unfold main, assert.
  intros ([[[v1 a1] b1] c1] & w1 & Hr1 & Hrest)%bind_Ok.
  apply bind_Ok in Hrest as (u1 & w1' & Ha1 & Hrest).
  case_bool_decide as H1; [injection Ha1 as _ <-|done].
  apply bind_Ok in Hrest as ([v2 a2] & w2 & Hr2 & Hrest).
  apply bind_Ok in Hrest as (u2 & w2' & Ha2 & Hrest).
  case_bool_decide as H2; [injection Ha2 as _ <-|done].
  apply bind_Ok in Hrest as ([v3 a3] & w3 & Hr3 & Ha3).
  case_bool_decide as H3; [injection Ha3 as <-|done].
  by exists (v1, a1, b1, c1), w1, (v2, a2), w2, (v3, a3).
Qed.

End Loaders.

(** ** A populated cache *)

Lemma prefix_trans (a b c : string) :
  String.prefix a b = true → String.prefix b c = true → String.prefix a c = true.
Proof.
  revert b c. induction a as [|x a IH]; intros [|y b] [|z c]; simpl; try done.
  destruct (Ascii.ascii_dec x y) as [->|]; [|done].
  destruct (Ascii.ascii_dec y z) as [->|]; [|done].
  apply IH.
Qed.

Lemma existsb_elements (f : string → bool) (s : gset string) (x : string) :
  x ∈ s → f x = true → existsb f (elements s) = true.
Proof.
  intros Hx Hf. apply existsb_exists. exists x. split; [|done].
  by apply list_elem_of_In, elem_of_elements.
Qed.

(** A file makes the directories above it exist. *)
Lemma isdir_above_file (w : world) (p q : string) :
  is_Some (files w !! q) → Os.below p q = true → Os.isdir w p = true.
Proof.
  intros Hq Hpq. unfold Os.isdir.
  rewrite (existsb_elements _ _ q) by (by apply elem_of_dom || done).
  by rewrite !orb_true_r.
Qed.

Lemma path_exists_file (w : world) (p : string) :
  is_Some (files w !! p) → Os.path_exists p w = (Ok true, w).
Proof.
  intros Hp. unfold Os.path_exists, Os.isfile.
  by rewrite bool_decide_eq_true_2 by (by apply elem_of_dom).
Qed.

Lemma path_exists_above_file (w : world) (p q : string) :
  is_Some (files w !! q) → Os.below p q = true → Os.path_exists p w = (Ok true, w).
Proof.
  intros Hq Hpq. unfold Os.path_exists.
  by rewrite (isdir_above_file w p q), orb_true_r.
Qed.

(** Whatever exists at [q] makes the directory [p] above it exist. *)
Lemma path_exists_above (w : world) (p q : string) :
  q ≠ "/" → q ≠ "" → Os.below p q = true →
  String.prefix (Os.as_dir p) (Os.as_dir q) = true →
  String.prefix (Os.as_dir q) p = false →
  (Os.path_exists q w).1 = Ok true → (Os.path_exists p w).1 = Ok true.
Proof.
  intros Hroot Hcwd Hpq Hdirs Hqp. unfold Os.path_exists. simpl. intros [= Hq].
  f_equal. apply orb_true_iff. right.
  assert (∀ r, Os.below q r = true → Os.below p r = true) as Hbelow.
  { intros r [Hne Hr]%andb_true_iff. apply andb_true_iff. split.
    - apply bool_decide_eq_true. intros ->. congruence.
    - by eapply prefix_trans. }
  assert (∀ l, existsb (Os.below q) l = true → existsb (Os.below p) l = true) as Hex.
  { intros l (r & Hr & Hqr)%existsb_exists. apply existsb_exists. eauto. }
  apply orb_true_iff in Hq as [Hfile|Hdir].
  - apply bool_decide_eq_true, elem_of_dom in Hfile. by eapply isdir_above_file.
  - unfold Os.isdir in *. rewrite !orb_true_iff in Hdir.
    destruct Hdir as [[[[Hdir|Hdir]|Hdir]|Hdir]|Hdir].
    + by apply bool_decide_eq_true in Hdir.
    + by apply bool_decide_eq_true in Hdir.
    + apply bool_decide_eq_true in Hdir.
      rewrite (existsb_elements (Os.below p) (dirs w) q) by done.
      by rewrite !orb_true_r.
    + rewrite (Hex _ Hdir). by rewrite !orb_true_r.
    + rewrite (Hex _ Hdir). by rewrite !orb_true_r.
Qed.

Section Warm.
Context `{Runtime}.

(** With the directory of the corpus in place, [wikitext] goes straight
    to [_load]. *)
Lemma wikitext_warm (dataset save_dir : string) (w : world) :
  dataset ∈ ["2"; "103"] →
  (Os.path_exists (Os.join save_dir ("wikitext-" +:+ dataset)) w).1 = Ok true →
  wikitext dataset save_dir w
  = _load (Os.join save_dir ("wikitext-" +:+ dataset)) wikitext_filenames w.
Proof.
  intros Hds Hdir. unfold wikitext. rewrite bool_decide_eq_false_2 by auto.
  cbv zeta. rewrite (bind_pure _ _ _ (Ok true)).
  - simpl negb. cbv iota. by rewrite (bind_pure _ _ _ (Ok tt)).
  - by destruct (Os.path_exists _ w) as [r w'] eqn:Hrun; simpl in *; subst;
      injection Hrun as <- <-.
Qed.

Lemma download_and_save_warm (save_dir : string) (w : world) :
  (∀ name, name ∈ ptb_filenames →
     (Os.path_exists (Os.join save_dir name) w).1 = Ok true) →
  download_and_save save_dir w = (Ok tt, w).
Proof.
  intros Hfiles. unfold download_and_save. cbv zeta.
  rewrite (bind_pure _ _ _ (result_mapM (λ _, Ok tt) ptb_filenames)); [done|].
  apply mapM_world_pure. intros name Hname.
  rewrite (bind_pure _ _ _ (Ok true)); [done|].
  specialize (Hfiles name Hname).
  by destruct (Os.path_exists _ w) as [r w'] eqn:Hrun; simpl in *; subst;
    injection Hrun as <- <-.
Qed.

(** With its directory and its three files in place, [ptb] goes
    straight to [_load]. *)
Lemma ptb_warm (save_dir : string) (w : world) :
  (Os.path_exists (Os.join save_dir "ptb") w).1 = Ok true →
  (∀ name, name ∈ ptb_filenames →
     (Os.path_exists (Os.join (Os.join save_dir "ptb") name) w).1 = Ok true) →
  ptb save_dir w = _load (Os.join save_dir "ptb") ptb_filenames w.
Proof.
  intros Hdir Hfiles. unfold ptb. cbv zeta.
  rewrite (bind_pure _ _ _ (Ok true)).
  - simpl negb. cbv iota. rewrite (bind_pure _ _ _ (Ok tt)) by done.
    by rewrite (bind_pure _ _ _ (Ok tt)) by (by apply download_and_save_warm).
  - by destruct (Os.path_exists _ w) as [r w'] eqn:Hrun; simpl in *; subst;
      injection Hrun as <- <-.
Qed.

(** With the archive in place, [enwik8] only reads. *)
Lemma enwik8_warm (save_dir : string) (w : world) :
  (Os.path_exists (Os.join save_dir "enwik8.zip") w).1 = Ok true →
  enwik8 save_dir w
  = (let* zf := Zipfile.open_path (Os.join save_dir "enwik8.zip") in
     let* data := Zipfile.read zf "enwik8" in
     lift (enwik8_encode data)) w.
Proof.
  intros Hzip. unfold enwik8. cbv zeta.
  rewrite (bind_pure _ _ _ (Ok true)).
  - simpl negb. cbv iota. by rewrite (bind_pure _ _ _ (Ok tt)).
  - by destruct (Os.path_exists _ w) as [r w'] eqn:Hrun; simpl in *; subst;
      injection Hrun as <- <-.
Qed.

Lemma enwik8_read_only_part (path : string) :
  read_only (let* zf := Zipfile.open_path path in
             let* data := Zipfile.read zf "enwik8" in
             lift (enwik8_encode data)).
Proof.
  apply read_only_bind; [apply open_path_read_only|]. intros zf.
  apply read_only_bind; [apply zip_read_read_only|]. intros data.
  apply read_only_lift.
Qed.

End Warm.

(** ** After a load that returned *)

Lemma read_only_run {A} (c : M A) (w : world) (r : result A) (w' : world) :
  read_only c → c w = (r, w') → w' = w.
Proof. intros Hc Hrun. specialize (Hc w). by rewrite Hrun in Hc. Qed.

Section AfterLoad.
Context `{Runtime}.

Lemma wikitext_Ok_inv (dataset save_dir : string) (w0 : world) r (w1 : world) :
  wikitext dataset save_dir w0 = (Ok r, w1) →
  dataset ∈ ["2"; "103"]
  ∧ _load (Os.join save_dir ("wikitext-" +:+ dataset)) wikitext_filenames w1 = (Ok r, w1).
Proof.
  unfold wikitext. case_bool_decide as Hds; [done|]. cbv zeta.
  intros (present & wa & _ & (u & wb & _ & Hload)%bind_Ok)%bind_Ok.
  split; [by destruct (decide (dataset ∈ ["2"; "103"]))|].
  by rewrite <- (read_only_run _ _ _ _ (_load_read_only _ _) Hload) in Hload at 1.
Qed.

Lemma ptb_Ok_inv (save_dir : string) (w0 : world) r (w1 : world) :
  ptb save_dir w0 = (Ok r, w1) →
  _load (Os.join save_dir "ptb") ptb_filenames w1 = (Ok r, w1).
Proof.
  unfold ptb. cbv zeta.
  intros (present & wa & _ & (u & wb & _ & (u' & wc & _ & Hload)%bind_Ok)%bind_Ok)%bind_Ok.
  by rewrite <- (read_only_run _ _ _ _ (_load_read_only _ _) Hload) in Hload at 1.
Qed.

Lemma enwik8_Ok_inv (save_dir : string) (w0 : world) r (w1 : world) :
  enwik8 save_dir w0 = (Ok r, w1) →
  is_Some (files w1 !! Os.join save_dir "enwik8.zip")
  ∧ (let* zf := Zipfile.open_path (Os.join save_dir "enwik8.zip") in
     let* data := Zipfile.read zf "enwik8" in
     lift (enwik8_encode data)) w1 = (Ok r, w1).
Proof.
  unfold enwik8. cbv zeta.
  intros (present & wa & _ & (u & wb & _ & Hrest)%bind_Ok)%bind_Ok.
  rewrite <- (read_only_run _ _ _ _ (enwik8_read_only_part _) Hrest) in Hrest at 1.
  split; [|done].
  apply bind_Ok in Hrest as (zf & wc & Hopen & _).
  apply bind_Ok in Hopen as (b & wd & Hread & _).
  unfold Os.read_bytes in Hread. by destruct (files w1 !! _).
Qed.

Lemma load_words_Ok_inv {A} (c : M A) (f : A → dataset) (w0 : world) d (w1 : world) :
  (let* r := c in ret (f r)) w0 = (Ok d, w1) → ∃ r, c w0 = (Ok r, w1) ∧ d = f r.
Proof. intros (r & wa & Hc & [= <- <-])%bind_Ok. eauto. Qed.

Lemma load_words_Ok {A} (c : M A) (f : A → dataset) (w0 : world) r (w1 : world) :
  c w0 = (Ok r, w1) → (let* r := c in ret (f r)) w0 = (Ok (f r), w1).
Proof. intros Hc. by rewrite bind_ret_map, Hc. Qed.

End AfterLoad.

(** ** Lookup errors *)

Section KeyErrors.
Context `{Runtime}.

Lemma encodings_Raise (vocab : gmap pystr Z) (texts : list pystr) (e : exn) :
  result_mapM (encode_text vocab) texts = Raise e ↔
  e = KeyError ∧ ∃ text tok, text ∈ texts ∧ tok ∈ text_tokens text ∧ vocab !! tok = None.
Proof.
  split.
  - intros (text & Htext & [-> (tok & Htok & Hnone)]%encode_text_Raise)%result_mapM_Raise.
    eauto 6.
  - intros [-> (text & tok & Htext & Htok & Hnone)].
    destruct (result_mapM (encode_text vocab) texts) as [arrays|e] eqn:Hall.
    + apply result_mapM_Ok in Hall. apply list_elem_of_lookup in Htext as [i Hi].
      destruct (Forall2_lookup_l _ _ _ _ _ Hall Hi) as (ids & _ & Hids).
      assert (encode_text vocab text = Raise KeyError) by (apply encode_text_Raise; eauto).
      congruence.
    + by apply result_mapM_Raise in Hall
        as (text' & _ & [-> _]%encode_text_Raise).
Qed.

Lemma result_mapM_fmap {A B C} (f : A → B) (g : B → result C) (l : list A) :
  result_mapM (λ x, g (f x)) l = result_mapM g (map f l).
Proof. induction l as [|x l IH]; simpl; [done|]. by rewrite IH. Qed.

Lemma _load_Raise (dir train : string) (rest : list string) (w : world) (e : exn) :
  (∀ fn, fn ∈ train :: rest → readable w (Os.join dir fn)) →
  (_load dir (train :: rest) w).1 = Raise e ↔
  e = KeyError ∧ ∃ fn tok, fn ∈ train :: rest ∧ absent_token w dir train fn tok.
Proof.
  intros Hfiles. rewrite (_load_present _ _ _ _ Hfiles). cbv zeta. cbn [fst].
  rewrite result_map_Raise.
  rewrite (result_mapM_fmap (λ fn, text_at w (Os.join dir fn)) (encode_text _)).
  rewrite encodings_Raise. unfold absent_token. split.
  - intros [-> (text & tok & (fn & -> & Hfn)%list_elem_of_fmap & Htok & Hnone)]. eauto 7.
  - intros [-> (fn & tok & Hfn & Htok & Hnone)]. split; [done|].
    exists (text_at w (Os.join dir fn)), tok. split; [|done].
    apply list_elem_of_fmap. eauto.
Qed.

Lemma mapM_world_Raise_read_only {A B} (f : A → M B) (l : list A) w e w' :
  (∀ x, read_only (f x)) →
  mapM_world f l w = (Raise e, w') →
  ∃ x, x ∈ l ∧ f x w = (Raise e, w').
Proof.
  intros Hf. induction l as [|x l IH]; simpl; [done|].
  intros [Hx|(y & w1 & Hy & Hrest)]%bind_Raise.
  - exists x. split; [by left | done].
  - pose proof (Hf x w) as Hw1. rewrite Hy in Hw1. simpl in Hw1. subst w1.
    apply bind_Raise in Hrest as [Hrest|(ys & w2 & _ & [=])].
    destruct (IH Hrest) as (x' & Hx' & Hr). exists x'. split; [by right | done].
Qed.

Lemma load_to_array_KeyError (dir : string) vocab (fn : string) (w w' : world) :
  load_to_array dir vocab fn w = (Raise KeyError, w') →
  readable w (Os.join dir fn)
  ∧ ∃ tok, tok ∈ text_tokens (text_at w (Os.join dir fn)) ∧ vocab !! tok = None.
Proof.
  intros [Hread|(text & w1 & (-> & Hfn & ->)%read_text_Ok & Henc)]%bind_Raise.
  - apply read_text_raises in Hread. naive_solver.
  - split; [done|]. injection Henc as Henc _.
    by apply encode_text_Raise in Henc as [_ ?].
Qed.

(** Whatever the files are, [_load] raises [KeyError] only for a token
    of a split that was read and that the vocabulary of the training file
    lacks. *)
Lemma _load_KeyError (dir : string) (fns : list string) (w : world) :
  (_load dir fns w).1 = Raise KeyError →
  ∃ train rest fn tok,
    fns = train :: rest ∧ fn ∈ fns
    ∧ readable w (Os.join dir train) ∧ readable w (Os.join dir fn)
    ∧ absent_token w dir train fn tok.
Proof.
  destruct (_load dir fns w) as [r w'] eqn:Hload. simpl. intros ->.
  apply bind_Raise in Hload as [Hfirst|(first & w1 & Hfirst & Hload)];
    [by destruct fns|].
  destruct fns as [|train rest]; [done|]. injection Hfirst as <- <-.
  apply bind_Raise in Hload
    as [Hread|(text & w1 & (-> & Htrain & ->)%read_text_Ok & Hload)].
  { apply read_text_raises in Hread. naive_solver. }
  apply bind_Raise in Hload as [Hall|(ds & w1 & _ & [=])].
  apply mapM_world_Raise_read_only in Hall as (fn & Hfn & Hraise);
    [|intros; apply load_to_array_read_only].
  apply load_to_array_KeyError in Hraise as (Hread & tok & Htok & Hnone).
  exists train, rest, fn, tok. done.
Qed.

Lemma _load_Ok_iff (dir train : string) (rest : list string) (w : world) :
  (∀ fn, fn ∈ train :: rest → readable w (Os.join dir fn)) →
  (∃ arrays, _load dir (train :: rest) w
             = (Ok (build_vocab (text_at w (Os.join dir train)), arrays), w)) ↔
  ¬ ∃ fn tok, fn ∈ train :: rest ∧ absent_token w dir train fn tok.
Proof.
  intros Hfiles. pose proof (_load_Raise dir train rest w KeyError Hfiles) as Hraise.
  pose proof (_load_present _ _ _ _ Hfiles) as Hload. cbv zeta in Hload.
  destruct (result_mapM _ (train :: rest)) as [arrays|e] eqn:Hall.
  - rewrite Hload in *. split; [|by eauto].
    intros _ Habsent. by destruct Hraise as [_ Hraise]; specialize (Hraise (conj eq_refl Habsent)).
  - rewrite Hload. split; [by intros [arrays [=]]|]. intros Hnone. exfalso.
    pose proof (_load_Raise dir train rest w e Hfiles) as [He _].
    rewrite Hload in He. destruct He as [_ Habsent]; [done|]. by apply Hnone.
Qed.

(** With the cache of a word-level corpus in place, [load_dataset]
    returns or raises what [_load] does, and changes nothing. *)
Lemma load_dataset_cached (dataname : string) (w : world) :
  dataname ≠ "enwik8" →
  (∀ fn, fn ∈ corpus_files dataname →
     is_Some (files w !! Os.join (corpus_dir dataname) fn)) →
  load_dataset dataname w
  = (result_map words_dataset
       (_load (corpus_dir dataname) (corpus_files dataname) w).1, w).
Proof.
  intros Hname. unfold load_dataset, corpus_dir, corpus_files.
  rewrite (bool_decide_eq_false_2 _ Hname).
  repeat case_bool_decide; intros Hfiles; rewrite bind_ret_map.
  - rewrite ptb_warm.
    + by rewrite (_load_read_only _ _ w).
    + rewrite (path_exists_above_file w _ "/tmp/ptb/ptb.train.txt"); [done| |done].
      apply (Hfiles "ptb.train.txt"). by left.
    + intros name Hname'. by rewrite path_exists_file by auto.
  - rewrite wikitext_warm.
    + by rewrite (_load_read_only _ _ w).
    + set_solver.
    + rewrite (path_exists_above_file w _ "/tmp/wikitext-2/wiki.train.tokens");
        [done| |done].
      apply (Hfiles "wiki.train.tokens"). by left.
  - rewrite wikitext_warm.
    + by rewrite (_load_read_only _ _ w).
    + set_solver.
    + rewrite (path_exists_above_file w _ "/tmp/wikitext-103/wiki.train.tokens");
        [done| |done].
      apply (Hfiles "wiki.train.tokens"). by left.
Qed.

Lemma load_dataset_enwik8_cached (w : world) (b : list byte) zf (data : list byte) :
  files w !! "/tmp/enwik8.zip" = Some b →
  zip_members b = Some zf →
  Zipfile.member zf "enwik8" = Some data →
  load_dataset "enwik8" w = (result_map chars_dataset (enwik8_encode data), w).
Proof.
  intros Hb Hzf Hdata. unfold load_dataset. rewrite bool_decide_eq_true_2 by done.
  rewrite bind_ret_map, enwik8_warm by (by rewrite path_exists_file).
  change (Os.join default_save_dir "enwik8.zip") with "/tmp/enwik8.zip".
  unfold Zipfile.open_path.
  assert (Os.read_bytes "/tmp/enwik8.zip" w = (Ok b, w)) as Hread
    by (unfold Os.read_bytes; by rewrite Hb).
  rewrite (bind_pure _ _ _ (Ok zf)).
  - unfold Zipfile.read. rewrite Hdata. by rewrite (bind_pure _ _ _ (Ok data)).
  - rewrite (bind_pure _ _ _ _ Hread). unfold Zipfile.open_bytes. by rewrite Hzf.
Qed.

End KeyErrors.

(** ** Another iteration order

    The order in which a set is iterated may change from one run of the
    interpreter to the next.  It decides which index a token gets, and
    nothing else: whether a load returns, the size of the vocabulary and
    the lengths of the arrays do not depend on it. *)

Lemma lookups_shape {A} `{Countable A} (vocab1 vocab2 : gmap A Z) (l : list A)
    (raw1 : list Z) :
  dom vocab1 = dom vocab2 →
  result_mapM (Py.getitem vocab1) l = Ok raw1 →
  ∃ raw2, result_mapM (Py.getitem vocab2) l = Ok raw2 ∧ length raw2 = length raw1.
Proof.
  intros Hdom Hraw1%lookups_Ok.
  destruct (lookups_total vocab2 l) as [raw2 Hraw2].
  { intros k Hk. apply elem_of_dom. rewrite <- Hdom. apply elem_of_dom.
    apply list_elem_of_lookup in Hk as [i Hi].
    destruct (Forall2_lookup_l _ _ _ _ _ Hraw1 Hi) as (j & _ & Hj). eauto. }
  exists raw2. split; [done|].
  apply lookups_Ok in Hraw2. apply Forall2_length in Hraw1, Hraw2. congruence.
Qed.

Lemma encode_text_shape (vocab1 vocab2 : gmap pystr Z) (text : pystr) (ids1 : list Z) :
  dom vocab1 = dom vocab2 →
  encode_text vocab1 text = Ok ids1 →
  ∃ ids2, encode_text vocab2 text = Ok ids2 ∧ length ids2 = length ids1.
Proof.
  unfold encode_text. intros Hdom (raw1 & Hraw1 & ->)%result_map_Ok.
  destruct (lookups_shape _ _ _ _ Hdom Hraw1) as (raw2 & -> & Hlen).
  exists (map Py.uint32 raw2). split; [done|]. by rewrite !length_map.
Qed.

Lemma encodings_shape (vocab1 vocab2 : gmap pystr Z) (texts : list pystr)
    (arrays1 : list (list Z)) :
  dom vocab1 = dom vocab2 →
  result_mapM (encode_text vocab1) texts = Ok arrays1 →
  ∃ arrays2, result_mapM (encode_text vocab2) texts = Ok arrays2
             ∧ Forall2 (λ ids ids', length ids = length ids') arrays1 arrays2.
Proof.
  intros Hdom Hall%result_mapM_Ok.
  induction Hall as [|text ids1 texts arrays1 Hids1 _ (arrays2 & Harrays2 & Hlen)].
  - exists []. split; [done | constructor].
  - destruct (encode_text_shape _ _ _ _ Hdom Hids1) as (ids2 & Hids2 & Hlen2).
    exists (ids2 :: arrays2). simpl. rewrite Hids2, Harrays2. simpl.
    split; [done|]. by constructor.
Qed.

Lemma build_vocab_shape (R1 R2 : Runtime) (text : pystr) :
  dom (@build_vocab R1 text) = dom (@build_vocab R2 text)
  ∧ size (@build_vocab R1 text) = size (@build_vocab R2 text).
Proof.
  assert (dom (@build_vocab R1 text) = dom (@build_vocab R2 text)) as Hdom
    by (by rewrite !build_vocab_dom).
  split; [done|]. by rewrite <- !size_dom, Hdom.
Qed.

Lemma _load_shape (R1 R2 : Runtime) (dir : string) (fns : list string) (w : world)
    vocab1 arrays1 (w1 : world) :
  @_load R1 dir fns w = (Ok (vocab1, arrays1), w1) →
  ∃ vocab2 arrays2,
    @_load R2 dir fns w1 = (Ok (vocab2, arrays2), w1)
    ∧ size vocab1 = size vocab2
    ∧ Forall2 (λ ids ids', length ids = length ids') arrays1 arrays2.
Proof.
  intros Hload.
  apply _load_Ok in Hload as (-> & Hfiles & first & rest & -> & -> & Harrays).
  pose proof (@_load_present R2 dir first rest w Hfiles) as Hload2. cbv zeta in Hload2.
  destruct (build_vocab_shape R1 R2 (text_at w (Os.join dir first))) as [Hdom Hsize].
  assert (result_mapM (encode_text (@build_vocab R1 (text_at w (Os.join dir first))))
            (map (λ fn, text_at w (Os.join dir fn)) (first :: rest)) = Ok arrays1) as Hall.
  { apply result_mapM_Ok. by rewrite Forall2_fmap_l. }
  destruct (encodings_shape _ _ _ _ Hdom Hall) as (arrays2 & Harrays2 & Hlen).
  rewrite <- result_mapM_fmap in Harrays2.
  eexists _, arrays2. split; [|done]. rewrite Hload2.
  by rewrite Harrays2.
Qed.

Lemma enwik8_encode_shape (R1 R2 : Runtime) (data : list byte) vocab1 train1 valid1 test1 :
  @enwik8_encode R1 data = Ok (vocab1, train1, valid1, test1) →
  ∃ vocab2 train2 valid2 test2,
    @enwik8_encode R2 data = Ok (vocab2, train2, valid2, test2)
    ∧ same_shape (Chars vocab1 train1 valid1 test1) (Chars vocab2 train2 valid2 test2).
Proof.
  intros (-> & Htr & Hva & Hte)%enwik8_encode_Ok.
  set (tr := (enwik8_split data).1.1) in *.
  assert (dom (@enwik8_vocab R1 tr) = dom (@enwik8_vocab R2 tr)) as Hdom
    by (by rewrite !enwik8_vocab_dom).
  assert (∀ dataset ids1,
    enwik8_to_array (@enwik8_vocab R1 tr) dataset = Ok ids1 →
    ∃ ids2, enwik8_to_array (@enwik8_vocab R2 tr) dataset = Ok ids2
            ∧ length ids1 = length ids2) as Hshape.
  { unfold enwik8_to_array. intros dataset ids1 (raw1 & Hraw1 & ->)%result_map_Ok.
    destruct (lookups_shape _ _ _ _ Hdom Hraw1) as (raw2 & -> & Hlen).
    exists (map Py.uint32 raw2). split; [done|]. by rewrite !length_map. }
  destruct (Hshape _ _ Htr) as (train2 & Htr2 & ?).
  destruct (Hshape _ _ Hva) as (valid2 & Hva2 & ?).
  destruct (Hshape _ _ Hte) as (test2 & Hte2 & ?).
  exists (@enwik8_vocab R2 tr), train2, valid2, test2. split.
  - by apply enwik8_encode_Ok.
  - simpl. by rewrite <- !size_dom, Hdom.
Qed.

Lemma enwik8_Ok_archive `{Runtime} (save_dir : string) (w0 : world) r (w1 : world) :
  enwik8 save_dir w0 = (Ok r, w1) →
  ∃ b zf data,
    files w1 !! Os.join save_dir "enwik8.zip" = Some b
    ∧ zip_members b = Some zf
    ∧ Zipfile.member zf "enwik8" = Some data
    ∧ enwik8_encode data = Ok r.
Proof.
  intros [_ Hrun]%enwik8_Ok_inv.
  apply bind_Ok in Hrun as (zf & wa & Hopen & Hrun).
  apply bind_Ok in Hopen as (b & wb & Hread & Hzf).
  apply bind_Ok in Hrun as (data & wc & Hdata & [= Hencode _]).
  unfold Os.read_bytes in Hread.
  destruct (files w1 !! Os.join save_dir "enwik8.zip") as [b'|] eqn:Hb; [|done].
  injection Hread as -> <-.
  unfold Zipfile.open_bytes in Hzf. destruct (zip_members b) as [zf'|] eqn:Hzf'; [|done].
  injection Hzf as -> _.
  unfold Zipfile.read in Hdata.
  destruct (Zipfile.member zf "enwik8") as [data'|] eqn:Hmember; [|done].
  injection Hdata as -> _. eauto 8.
Qed.

(** A second load, under any iteration order, returns a result of the
    shape of the first. *)
Lemma load_dataset_reload_shape (R1 R2 : Runtime) (dataname : string)
    (w0 : world) (d : dataset) (w1 : world) :
  @zip_members R2 = @zip_members R1 →
  @load_dataset R1 dataname w0 = (Ok d, w1) →
  ∃ d', @load_dataset R2 dataname w1 = (Ok d', w1) ∧ same_shape d d'.
Proof.
  intros Hzip. destruct (decide (dataname = "enwik8")) as [->|Hname].
  - unfold load_dataset at 1. rewrite bool_decide_eq_true_2 by done.
    intros (r & Hrun & ->)%load_words_Ok_inv.
    apply enwik8_Ok_archive in Hrun as (b & zf & data & Hb & Hzf & Hdata & Hencode).
    destruct r as [[[vocab1 train1] valid1] test1].
    destruct (enwik8_encode_shape R1 R2 _ _ _ _ _ Hencode)
      as (vocab2 & train2 & valid2 & test2 & Hencode2 & Hshape).
    exists (Chars vocab2 train2 valid2 test2). split; [|done].
    rewrite (@load_dataset_enwik8_cached R2 w1 b zf data); [|done| |done].
    + by rewrite Hencode2.
    + by rewrite Hzip.
  - intros Hrun.
    assert (∃ vocab1 arrays1,
      @_load R1 (corpus_dir dataname) (corpus_files dataname) w1
        = (Ok (vocab1, arrays1), w1) ∧ d = Words vocab1 arrays1)
      as (vocab1 & arrays1 & Hload & ->).
    { revert Hrun. unfold load_dataset, corpus_dir, corpus_files.
      rewrite (bool_decide_eq_false_2 _ Hname).
      repeat case_bool_decide; intros ([vocab1 arrays1] & Hrun & ->)%load_words_Ok_inv;
        exists vocab1, arrays1; (split; [|done]).
      - by apply ptb_Ok_inv in Hrun.
      - by apply wikitext_Ok_inv in Hrun as [_ Hrun].
      - by apply wikitext_Ok_inv in Hrun as [_ Hrun]. }
    destruct (_load_shape R1 R2 _ _ _ _ _ _ Hload) as (vocab2 & arrays2 & Hload2 & Hshape).
    exists (Words vocab2 arrays2). split; [|done].
    apply _load_Ok in Hload as (_ & Hfiles & _).
    rewrite (@load_dataset_cached R2); [by rewrite Hload2 | done |].
    intros fn Hfn. by apply readable_file, Hfiles.
Qed.

(** ** Runs on the small world *)

Lemma is_Ok_run {A} (c : M A) (w : world) :
  is_Ok (c w).1 = true → ∃ a w', c w = (Ok a, w').
Proof. destruct (c w) as [[a|e] w']; [by eexists _, _ | done]. Qed.

Lemma demo_wikitext2_loads : is_Ok (load_dataset "wikitext2" demo_world).1 = true.
Proof. vm_compute. reflexivity. Qed.

Lemma demo_ptb_loads : is_Ok (load_dataset "ptb" demo_world).1 = true.
Proof. vm_compute. reflexivity. Qed.

Lemma demo_text8_loads : is_Ok (load_dataset "text8" demo_world).1 = true.
Proof. vm_compute. reflexivity. Qed.

Lemma demo_wikitext2_cold_log :
  net_log (load_dataset "wikitext2" demo_world).2
  = ["https://s3.amazonaws.com/research.metamind.io/wikitext/wikitext-2-v1.zip"].
Proof. vm_compute. reflexivity. Qed.

(** A cache in UTF-8 loads: the two bytes of the letter are one
    character of a word, and no whitespace. *)
Lemma demo_utf8_text :
  text_at demo_utf8_world "/tmp/ptb/ptb.valid.txt"
  = str "voil" ++ [224%N] ++ str (" x" +:+ lf).
Proof. vm_compute. reflexivity. Qed.

Lemma demo_utf8_loads : is_Ok (load_dataset "ptb" demo_utf8_world).1 = true.
Proof. vm_compute. reflexivity. Qed.

(** A training file that is not UTF-8 stops the load. *)
Lemma demo_latin1_raises :
  (load_dataset "ptb" demo_latin1_world).1 = Raise UnicodeDecodeError.
Proof. vm_compute. reflexivity. Qed.

Lemma demo_wiki_cached_loads :
  is_Ok (_load "/tmp/wikitext-2"
           ["wiki.train.tokens"; "wiki.valid.tokens"; "wiki.test.tokens"]
           demo_wiki_world).1 = true.
Proof. vm_compute. reflexivity. Qed.

Lemma demo_wiki_blank_line :
  blank_line ∈ Py.readlines (text_at demo_wiki_world "/tmp/wikitext-2/wiki.train.tokens").
Proof. vm_compute. apply list_elem_of_here. Qed.

(** * The claims of the specification *)

(** C3.  Whenever [load_dataset] returns, for the character-level corpus
    as for the word-level ones, every integer of each of the three arrays
    is an index into the returned vocabulary: it lies in
    [0 .. len(vocabulary) - 1]. *)
Theorem encoded_ids_in_range `{Runtime} (dataname : string) (w : world)
    (d : dataset) (w' : world) :
  load_dataset dataname w = (Ok d, w') → dataset_in_range d.
Proof. intros Hd. by apply load_dataset_returns in Hd as [? _]. Qed.

Lemma encoded_ids_in_range_witness :
  ∃ d w', load_dataset "wikitext2" demo_world = (Ok d, w') ∧ dataset_in_range d.
Proof.
  destruct (is_Ok_run _ _ demo_wikitext2_loads) as (d & w' & Hrun).
  exists d, w'. split; [exact Hrun|]. exact (encoded_ids_in_range _ _ _ _ Hrun).
Defined.

(** C5.  [load_dataset] gives the result of [enwik8] for the name
    "enwik8", of [ptb] for "ptb", of WikiText-2 for "wikitext2", and of
    WikiText-103 for every other name, "wikitext103" or not.  No name is
    refused: [load_dataset] never raises [ValueError], and what it raises
    is an error of the load itself. *)
Theorem load_dataset_dispatch `{Runtime} (dataname : string) (w : world) :
  (dataname = "enwik8" →
     load_dataset dataname w
     = (let* r := enwik8 "/tmp" in ret (chars_dataset r)) w)
  ∧ (dataname = "ptb" →
     load_dataset dataname w
     = (let* r := ptb "/tmp" in ret (words_dataset r)) w)
  ∧ (dataname = "wikitext2" →
     load_dataset dataname w
     = (let* r := wikitext "2" "/tmp" in ret (words_dataset r)) w)
  ∧ (dataname ∉ ["enwik8"; "ptb"; "wikitext2"] →
     load_dataset dataname w
     = (let* r := wikitext "103" "/tmp" in ret (words_dataset r)) w)
  ∧ (∀ e w', load_dataset dataname w = (Raise e, w') →
       e ≠ ValueError ∧ load_error e).
Proof.
  split; [by intros ->|]. split; [by intros ->|]. split; [by intros ->|]. split.
  - intros Hother. unfold load_dataset.
    rewrite !bool_decide_eq_false_2; [done | set_solver..].
  - intros e w' He. apply load_dataset_raises in He. split; [|done].
    intros ->. unfold load_error in He. set_solver.
Qed.

Lemma load_dataset_dispatch_witness :
  load_dataset "text8" demo_world
  = (let* r := wikitext "103" "/tmp" in ret (words_dataset r)) demo_world
  ∧ ∃ d w', load_dataset "text8" demo_world = (Ok d, w').
Proof.
  destruct (load_dataset_dispatch "text8" demo_world) as (_ & _ & _ & Hother & _).
  split.
  - apply Hother. intros Hin. vm_compute in Hin.
    repeat (apply elem_of_cons in Hin as [Hin|Hin]; [discriminate Hin|]).
    by apply elem_of_nil in Hin.
  - exact (is_Ok_run _ _ demo_text8_loads).
Defined.

(** C6.  The vocabulary that a load returns maps its keys one-to-one onto
    the indices [0 .. len(vocabulary) - 1]; the keys are the distinct
    tokens of the training split, and for the word-level corpora the
    end-of-sequence token "<eos>" besides. *)
Theorem vocabulary_bijection `{Runtime} :
  (∀ dataname w d w',
     load_dataset dataname w = (Ok d, w') → dataset_vocab_bijective d)
  ∧ (∀ text, vocab_bijective (build_vocab text)
       ∧ dom (build_vocab text)
         = list_to_set (concat (map line_tokens (Py.readlines text))) ∪ {[eos]})
  ∧ (∀ train_data, vocab_bijective (enwik8_vocab train_data)
       ∧ dom (enwik8_vocab train_data) = list_to_set train_data).
Proof.
  split; [|split].
  - intros dataname w d w' Hd. by apply load_dataset_returns in Hd as [_ ?].
  - intros text. split; [apply build_vocab_bijective | apply build_vocab_dom].
  - intros train_data. split; [apply enwik8_vocab_bijective | apply enwik8_vocab_dom].
Qed.

Lemma vocabulary_bijection_witness :
  ∃ d w', load_dataset "ptb" demo_world = (Ok d, w') ∧ dataset_vocab_bijective d.
Proof.
  destruct vocabulary_bijection as (Hload & _ & _).
  destruct (is_Ok_run _ _ demo_ptb_loads) as (d & w' & Hrun).
  exists d, w'. split; [exact Hrun|]. exact (Hload _ _ _ _ Hrun).
Defined.

(** C8.  [wikitext] raises [ValueError] exactly when its [dataset]
    argument is neither "2" nor "103". *)
Theorem wikitext_ValueError `{Runtime} (dataset save_dir : string) (w : world) :
  (wikitext dataset save_dir w).1 = Raise ValueError ↔
  dataset ≠ "2" ∧ dataset ≠ "103".
Proof.
  split.
  - intros Herr. destruct (decide (dataset ∈ ["2"; "103"])) as [Hin|Hout].
    + destruct (wikitext dataset save_dir w) as [r w'] eqn:Hrun. simpl in Herr. subst r.
      apply wikitext_raises in Hrun; [|done]. unfold load_error in Hrun. set_solver.
    + set_solver.
  - intros [H2 H103]. unfold wikitext. rewrite bool_decide_eq_true_2; [done|]. set_solver.
Qed.

(** C7.  With the cache of a corpus populated, a load of that corpus
    leaves the world as it found it: it makes no request to the network.
    And after a load that returned, from a cold cache or not, the cache
    is populated and a second load returns again: the very same
    vocabulary and arrays when sets are iterated in the same order, and
    under any other order a vocabulary of the same size and arrays of the
    same lengths. *)
Theorem warm_cache_reload `{R1 : Runtime} (dataname : string) :
  (∀ w, cache_populated dataname w →
     (load_dataset dataname w).2 = w
     ∧ net_log (load_dataset dataname w).2 = net_log w)
  ∧ (∀ w0 d w1, load_dataset dataname w0 = (Ok d, w1) →
       cache_populated dataname w1
       ∧ load_dataset dataname w1 = (Ok d, w1)
       ∧ ∀ R2 : Runtime, @zip_members R2 = @zip_members R1 →
           ∃ d', @load_dataset R2 dataname w1 = (Ok d', w1) ∧ same_shape d d').
Proof.
  assert (∀ w, cache_populated dataname w → (load_dataset dataname w).2 = w) as Hwarm.
  { intros w. unfold cache_populated, load_dataset.
    repeat case_bool_decide; intros Hcache; rewrite bind_ret_map; simpl.
    - rewrite enwik8_warm by done. apply enwik8_read_only_part.
    - rewrite ptb_warm; [apply _load_read_only | | done].
      apply (path_exists_above w _ "/tmp/ptb/ptb.train.txt"); try done.
      apply (Hcache "ptb.train.txt"). by left.
    - rewrite wikitext_warm; [apply _load_read_only | set_solver | done].
    - rewrite wikitext_warm; [apply _load_read_only | set_solver | done]. }
  split; [intros w Hcache; by rewrite Hwarm|].
  intros w0 d w1 Hfirst.
  enough (cache_populated dataname w1 ∧ load_dataset dataname w1 = (Ok d, w1))
    as [Hcache Hsecond].
  { split; [done|]. split; [done|]. intros R2 Hzip.
    exact (load_dataset_reload_shape R1 R2 dataname w0 d w1 Hzip Hfirst). }
  clear Hwarm. revert Hfirst. unfold cache_populated, load_dataset.
  repeat case_bool_decide; intros (r & Hrun & ->)%load_words_Ok_inv.
  - apply enwik8_Ok_inv in Hrun as [Hzip Hrun].
    assert ((Os.path_exists (Os.join default_save_dir "enwik8.zip") w1).1 = Ok true)
      as Hcache by (by rewrite path_exists_file).
    split; [done|]. apply load_words_Ok. by rewrite enwik8_warm.
  - apply ptb_Ok_inv in Hrun. destruct r as [vocab arrays].
    pose proof (_load_Ok _ _ _ _ _ _ Hrun) as (_ & Hfiles & _).
    assert (∀ name, name ∈ ptb_filenames →
      (Os.path_exists (Os.join (Os.join default_save_dir "ptb") name) w1).1 = Ok true)
      as Hcache
      by (intros name Hname; by rewrite path_exists_file by auto using readable_file).
    split; [done|]. apply load_words_Ok. rewrite ptb_warm; [done| |done].
    rewrite (path_exists_above_file w1 _ "/tmp/ptb/ptb.train.txt"); [done| |done].
    apply readable_file, (Hfiles "ptb.train.txt"). by left.
  - apply wikitext_Ok_inv in Hrun as [_ Hrun]. destruct r as [vocab arrays].
    pose proof (_load_Ok _ _ _ _ _ _ Hrun) as (_ & Hfiles & _).
    assert ((Os.path_exists (Os.join default_save_dir "wikitext-2") w1).1 = Ok true)
      as Hcache.
    { rewrite (path_exists_above_file w1 _ "/tmp/wikitext-2/wiki.train.tokens");
        [done| |done].
      apply readable_file, (Hfiles "wiki.train.tokens"). by left. }
    split; [done|]. apply load_words_Ok. rewrite wikitext_warm; [done | set_solver | done].
  - apply wikitext_Ok_inv in Hrun as [_ Hrun]. destruct r as [vocab arrays].
    pose proof (_load_Ok _ _ _ _ _ _ Hrun) as (_ & Hfiles & _).
    assert ((Os.path_exists (Os.join default_save_dir "wikitext-103") w1).1 = Ok true)
      as Hcache.
    { rewrite (path_exists_above_file w1 _ "/tmp/wikitext-103/wiki.train.tokens");
        [done| |done].
      apply readable_file, (Hfiles "wiki.train.tokens"). by left. }
    split; [done|]. apply load_words_Ok. rewrite wikitext_warm; [done | set_solver | done].
Qed.

(** C4.  The text of a file is what [open(path, "r")] gives: its bytes
    decoded as UTF-8.  The vocabulary is built from the training split
    alone: its keys are the tokens of the training file and "<eos>" (the
    bytes of the training region, for enwik8).  With the files of the
    corpus in place and readable as text, encoding raises exactly when
    some split holds a token that this vocabulary lacks, the exception is
    the lookup error [KeyError], and otherwise the load returns; no token
    is replaced by a stand-in.  Whatever the files are, [_load] raises
    [KeyError] only for such a token, of a split that it could read.
    [load_dataset] hands the exception to its caller as it is.  The
    training split itself is always encoded. *)
Theorem lookup_errors `{Runtime} :
  (∀ dir train rest w,
     (∀ fn, fn ∈ train :: rest → readable w (Os.join dir fn)) →
     let vocab := build_vocab (text_at w (Os.join dir train)) in
     (∀ tok, is_Some (vocab !! tok) ↔
             tok = eos ∨ ∃ l, l ∈ Py.readlines (text_at w (Os.join dir train))
                              ∧ tok ∈ line_tokens l)
     ∧ (∀ e, (_load dir (train :: rest) w).1 = Raise e ↔
             e = KeyError
             ∧ ∃ fn tok, fn ∈ train :: rest ∧ absent_token w dir train fn tok)
     ∧ ((∃ arrays, _load dir (train :: rest) w = (Ok (vocab, arrays), w)) ↔
        ¬ ∃ fn tok, fn ∈ train :: rest ∧ absent_token w dir train fn tok)
     ∧ (∀ tok, ¬ absent_token w dir train train tok)
     ∧ (∃ ids, encode_text vocab (text_at w (Os.join dir train)) = Ok ids))
  ∧ (∀ dir fns w,
       (_load dir fns w).1 = Raise KeyError →
       ∃ train rest fn tok,
         fns = train :: rest ∧ fn ∈ fns
         ∧ readable w (Os.join dir train) ∧ readable w (Os.join dir fn)
         ∧ absent_token w dir train fn tok)
  ∧ (∀ dataname w,
       dataname ≠ "enwik8" →
       (∀ fn, fn ∈ corpus_files dataname →
          readable w (Os.join (corpus_dir dataname) fn)) →
       (load_dataset dataname w).1 = Raise KeyError ↔
       ∃ fn tok, fn ∈ corpus_files dataname
                 ∧ absent_token w (corpus_dir dataname) (corpus_train dataname) fn tok)
  ∧ (∀ data,
       (∀ b, is_Some (enwik8_vocab (enwik8_split data).1.1 !! b) ↔
             b ∈ (enwik8_split data).1.1)
       ∧ (∀ e, enwik8_encode data = Raise e ↔
               e = KeyError
               ∧ ∃ b, (b ∈ (enwik8_split data).1.2 ∨ b ∈ (enwik8_split data).2)
                      ∧ b ∉ (enwik8_split data).1.1)
       ∧ (∃ ids, enwik8_to_array (enwik8_vocab (enwik8_split data).1.1)
                   (enwik8_split data).1.1 = Ok ids))
  ∧ (∀ w b zf data,
       files w !! "/tmp/enwik8.zip" = Some b →
       zip_members b = Some zf →
       Zipfile.member zf "enwik8" = Some data →
       (load_dataset "enwik8" w).1 = Raise KeyError ↔ enwik8_encode data = Raise KeyError).
Proof.
  split; [|split; [|split; [|split]]].
  - intros dir train rest w Hfiles vocab.
    assert (∀ tok, ¬ absent_token w dir train train tok) as Htrain.
    { intros tok [Htok Hnone]. apply train_tokens_known in Htok as [i Hi]. congruence. }
    split; [intros tok; apply build_vocab_lookup|].
    split; [intros e; by apply _load_Raise|].
    split; [by apply _load_Ok_iff|]. split; [done|].
    apply encode_text_total, train_tokens_known.
  - apply _load_KeyError.
  - intros dataname w Hname Hfiles.
    rewrite load_dataset_cached by auto using readable_file. cbn [fst].
    rewrite result_map_Raise. revert Hfiles.
    unfold corpus_files, corpus_dir, corpus_train, ptb_filenames, wikitext_filenames.
    repeat case_bool_decide; intros Hfiles; rewrite _load_Raise by done; naive_solver.
  - intros data. split; [intros b; apply enwik8_vocab_lookup|].
    split; [intros e; apply enwik8_encode_Raise | apply enwik8_train_total].
  - intros w b zf data Hb Hzf Hdata.
    rewrite (load_dataset_enwik8_cached w b zf data) by done. cbn [fst].
    by rewrite result_map_Raise.
Qed.

Lemma demo_oov_absent :
  str "calloway" ∈ text_tokens (text_at demo_oov_world "/tmp/ptb/ptb.valid.txt")
  ∧ build_vocab (text_at demo_oov_world "/tmp/ptb/ptb.train.txt") !! str "calloway" = None.
Proof. split; [|by vm_compute]. vm_compute. apply list_elem_of_further, list_elem_of_here. Qed.

Lemma demo_oov_cached (fn : string) :
  fn ∈ ptb_filenames → readable demo_oov_world (Os.join "/tmp/ptb" fn).
Proof.
  intros Hfn. unfold ptb_filenames in Hfn. apply readable_decoded.
  repeat (apply elem_of_cons in Hfn as [->|Hfn]; [vm_compute; by eexists|]).
  by apply elem_of_nil in Hfn.
Qed.

Lemma lookup_errors_witness :
  (load_dataset "ptb" demo_oov_world).1 = Raise KeyError.
Proof.
  destruct lookup_errors as (_ & _ & Hload & _ & _).
  apply (Hload "ptb" demo_oov_world).
  - discriminate.
  - exact demo_oov_cached.
  - exists "ptb.valid.txt", (str "calloway"). split; [|exact demo_oov_absent].
    apply list_elem_of_further, list_elem_of_here.
Defined.

Lemma warm_cache_reload_witness :
  ∃ d w1 d',
    load_dataset "wikitext2" demo_world = (Ok d, w1)
    ∧ net_log w1
      = ["https://s3.amazonaws.com/research.metamind.io/wikitext/wikitext-2-v1.zip"]
    ∧ cache_populated "wikitext2" w1
    ∧ load_dataset "wikitext2" w1 = (Ok d, w1)
    ∧ @load_dataset demo_runtime_rev "wikitext2" w1 = (Ok d', w1)
    ∧ same_shape d d'.
Proof.
  destruct (warm_cache_reload "wikitext2") as [_ Hreload].
  destruct (is_Ok_run _ _ demo_wikitext2_loads) as (d & w1 & Hrun).
  destruct (Hreload _ _ _ Hrun) as (Hcache & Hsecond & Hother).
  destruct (Hother demo_runtime_rev eq_refl) as (d' & Hrev & Hshape).
  exists d, w1, d'. split; [exact Hrun|]. split.
  - pose proof demo_wikitext2_cold_log as Hlog. rewrite Hrun in Hlog. exact Hlog.
  - auto.
Defined.

(** C10, as the code has it.  A line is cut at every single space, not at
    whitespace in general (a tab separates nothing).  A line that is
    empty once stripped gives one empty token, and k spaces in a row
    inside the stripped line give k - 1 empty tokens between the pieces
    around them; whitespace at the start and at the end of a line,
    spaces among it, is stripped and gives none.  So when the training file has a blank line, or a line with two
    adjacent spaces inside once it is stripped, the empty string is a key
    of the vocabulary that [_load] returns, and in each array that it
    returns every blank line of the split contributes two ids: that of
    the empty string, then that of the end-of-sequence marker. *)
Theorem single_space_tokenization `{Runtime} :
  (line_tokens (str "a" ++ tab ++ str "b") = [str "a" ++ tab ++ str "b"]
   ∧ ws_tokens (str "a" ++ tab ++ str "b") = [str "a"; str "b"])
  ∧ (∀ l, Py.strip l = [] → line_tokens l = [[]])
  ∧ (∀ l s t k, (1 ≤ k)%nat → Py.strip l = s ++ spaces k ++ t →
       line_tokens l
       = Py.split Py.space s ++ replicate (k - 1) [] ++ Py.split Py.space t)
  ∧ (∀ s1 s2 l,
       Forall (λ c, Py.isspace c = true) s1 →
       Forall (λ c, Py.isspace c = true) s2 →
       line_tokens (s1 ++ l ++ s2) = line_tokens l)
  ∧ (∀ text l,
       l ∈ Py.readlines text →
       (Py.strip l = [] ∨ ∃ s t, Py.strip l = s ++ spaces 2 ++ t) →
       ∃ i j,
         build_vocab text !! [] = Some i
         ∧ build_vocab text !! eos = Some j
         ∧ (∀ l', Py.strip l' = [] →
              line_ids (build_vocab text) l' = Ok [Py.uint32 i; Py.uint32 j])
         ∧ ∀ text' ids,
             encode_text (build_vocab text) text' = Ok ids →
             ∃ idss,
               ids = concat idss
               ∧ Forall2 (λ l' r,
                     line_ids (build_vocab text) l' = Ok r
                     ∧ (Py.strip l' = [] → r = [Py.uint32 i; Py.uint32 j]))
                   (Py.readlines text') idss)
  ∧ (∀ dir train rest w vocab arrays w' l,
       _load dir (train :: rest) w = (Ok (vocab, arrays), w') →
       l ∈ Py.readlines (text_at w (Os.join dir train)) →
       (Py.strip l = [] ∨ ∃ s t, Py.strip l = s ++ spaces 2 ++ t) →
       ∃ i j,
         vocab !! [] = Some i
         ∧ vocab !! eos = Some j
         ∧ Forall2 (λ fn ids,
               ∃ idss,
                 ids = concat idss
                 ∧ Forall2 (λ l' r,
                       line_ids vocab l' = Ok r
                       ∧ (Py.strip l' = [] → r = [Py.uint32 i; Py.uint32 j]))
                     (Py.readlines (text_at w (Os.join dir fn))) idss)
             (train :: rest) arrays).
Proof.
  split; [done|]. split; [apply blank_line_tokens|]. split.
  { intros l s t k Hk Hl. unfold line_tokens. rewrite Hl. by apply split_spaces. }
  split; [apply line_tokens_outer_ws|]. split.
  - intros text l Hl Hcase.
    destruct (build_vocab_empty_token text l Hl Hcase) as [i Hi].
    destruct (build_vocab_eos text) as [j Hj].
    exists i, j. split; [done|]. split; [done|]. split.
    + intros l' Hblank. by apply blank_line_ids.
    + intros text' ids. by apply encode_text_blank_lines.
  - intros dir train rest w vocab arrays w' l Hload Hl Hcase.
    apply _load_Ok in Hload as (_ & _ & first & rest' & [= <- <-] & -> & Harrays).
    destruct (build_vocab_empty_token _ l Hl Hcase) as [i Hi].
    destruct (build_vocab_eos (text_at w (Os.join dir train))) as [j Hj].
    exists i, j. split; [done|]. split; [done|].
    eapply Forall2_impl; [exact Harrays|]. intros fn ids Hids. simpl in Hids.
    by apply (encode_text_blank_lines _ _ _ i j).
Qed.

Lemma single_space_tokenization_witness :
  ∃ vocab arrays w' i j,
    _load "/tmp/wikitext-2"
      ["wiki.train.tokens"; "wiki.valid.tokens"; "wiki.test.tokens"] demo_wiki_world
    = (Ok (vocab, arrays), w')
    ∧ vocab !! [] = Some i
    ∧ vocab !! eos = Some j
    ∧ Forall2 (λ fn ids,
          ∃ idss,
            ids = concat idss
            ∧ Forall2 (λ l' r,
                  line_ids vocab l' = Ok r
                  ∧ (Py.strip l' = [] → r = [Py.uint32 i; Py.uint32 j]))
                (Py.readlines (text_at demo_wiki_world (Os.join "/tmp/wikitext-2" fn)))
                idss)
        ["wiki.train.tokens"; "wiki.valid.tokens"; "wiki.test.tokens"] arrays.
Proof.
  destruct single_space_tokenization as (_ & _ & _ & _ & _ & Hload).
  destruct (is_Ok_run _ _ demo_wiki_cached_loads) as ([vocab arrays] & w' & Hrun).
  destruct (Hload _ _ _ _ _ _ _ blank_line Hrun) as (i & j & Hi & Hj & Harrays).
  - exact demo_wiki_blank_line.
  - left. reflexivity.
  - exists vocab, arrays, w', i, j. auto.
Defined.

(** C10 fails as the specification words it: a training file whose one
    line starts with a run of two spaces loads, and the empty string is
    no key of the vocabulary that comes back. *)
Lemma leading_spaces_no_empty_token :
  text_at demo_indent_world "/tmp/ptb/ptb.train.txt" = spaces 2 ++ str ("a" +:+ lf)
  ∧ match load_dataset "ptb" demo_indent_world with
    | (Ok (Words vocab _), _) => vocab !! [] = None
    | _ => False
    end.
Proof. split; vm_compute; reflexivity. Qed.
